(** * Webhook fan-out of [handleBookingRequested]

    A shallow embedding of
    [packages/features/bookings/lib/handleBookingRequested.ts]:
    JavaScript values and objects, the collaborators the function calls
    (mail senders, subscriber resolver, delivery dispatcher, console), a
    small trace monad for [async]/[await], promises with [.catch] and
    [Promise.all], and the function itself. *)

From Stdlib Require Import ZArith.
From stdpp Require Import gmap strings list fin_maps.

Local Open Scope Z_scope.
Local Open Scope string_scope.
Local Open Scope list_scope.

(** ** JavaScript values *)

#[local] Unset Elimination Schemes.
Inductive JSValue : Type :=
| JSUndefined
| JSNull
| JSBool (b : bool)
| JSNumber (n : Z)
| JSString (s : string)
| JSArray (items : list JSValue)
| JSObject (props : list (string * JSValue)).
#[local] Set Elimination Schemes.

(** A top-level object: own enumerable properties by key. A key can be
    present with the value [JSUndefined]. *)
Abbreviation JSObj := (gmap string JSValue).

(** ToBoolean. *)
Definition truthy (v : JSValue) : bool :=
  match v with
  | JSUndefined | JSNull => false
  | JSBool b => b
  | JSNumber n => negb (n =? 0)%Z
  | JSString s => negb (String.eqb s "")
  | JSArray _ | JSObject _ => true
  end.

(** [a || b] *)
Definition js_or (a b : JSValue) : JSValue := if truthy a then a else b.

(** [{ ...target, ...source }]: every own property of [source] is written
    over [target]. *)
Definition spread (target source : JSObj) : JSObj := source ∪ target.

(** [string | null] and [number | null] columns. *)
Definition ofNullableString (o : option string) : JSValue :=
  match o with Some s => JSString s | None => JSNull end.

Definition ofNullableNumber (o : option Z) : JSValue :=
  match o with Some n => JSNumber n | None => JSNull end.

(** ** Enumerations and records of the data model *)

(** Modelled from the spec: the enumeration [WebhookTriggerEvents] of
    [@calcom/prisma/enums] is not part of the sources; these are the trigger
    kinds the glossary and the tests name. *)
Inductive WebhookTriggerEvents : Type :=
| BOOKING_CREATED
| BOOKING_REQUESTED
| BOOKING_PAYMENT_INITIATED
| BOOKING_CANCELLED
| BOOKING_RESCHEDULED.

#[global] Instance WebhookTriggerEvents_eq_dec : EqDecision WebhookTriggerEvents.
Proof. solve_decision. Defined.

(** The enum member as the string it is at run time. *)
Definition triggerName (t : WebhookTriggerEvents) : string :=
  match t with
  | BOOKING_CREATED => "BOOKING_CREATED"
  | BOOKING_REQUESTED => "BOOKING_REQUESTED"
  | BOOKING_PAYMENT_INITIATED => "BOOKING_PAYMENT_INITIATED"
  | BOOKING_CANCELLED => "BOOKING_CANCELLED"
  | BOOKING_RESCHEDULED => "BOOKING_RESCHEDULED"
  end.

(** Modelled from the spec: the row type of a webhook subscription is
    declared outside the sources; the fields are the ones of the spec's
    Subscription. The rows the tests create carry no secret, so [secret]
    can be missing. *)
Record Webhook : Type := mkWebhook {
  w_id : string;
  userId : Z;
  teamId : option Z;
  eventTypeId : option Z;
  eventTriggers : list WebhookTriggerEvents;
  subscriberUrl : string;
  active : bool;
  secret : option string;
  appId : option string;
}.

#[global] Instance Webhook_eq_dec : EqDecision Webhook.
Proof. solve_decision. Defined.

(** [booking.eventType]. [et_teamId] is [teamId?: number | null]: the
    property can be missing ([None]), [null] ([Some None]) or a number. *)
Record EventType : Type := mkEventType {
  et_currency : string;
  et_description : option string;
  et_id : Z;
  et_length : Z;
  et_price : Z;
  et_requiresConfirmation : bool;
  et_title : string;
  et_teamId : option (option Z);
}.

Record Booking : Type := mkBooking {
  b_eventType : option EventType;
  b_eventTypeId : option Z;
  b_smsReminderNumber : option string;
  b_userId : option Z;
}.

(** [CalendarEvent]: the [attendees] array, which the type requires, and
    every other own property. *)
Record CalendarEvent : Type := mkCalendarEvent {
  attendees : list JSValue;
  otherProps : JSObj;
}.

(** The object [evt] as [{ ...evt }] sees it. *)
Definition calendarEventObject (evt : CalendarEvent) : JSObj :=
  <["attendees" := JSArray (attendees evt)]> (otherProps evt).

(** [evt.attendees[0]] *)
Definition firstAttendee (evt : CalendarEvent) : JSValue :=
  match attendees evt with
  | [] => JSUndefined
  | p :: _ => p
  end.

(** The argument of [handleBookingRequested], with the fields it reads. *)
Record Args : Type := mkArgs {
  evt : CalendarEvent;
  bookingId : Z;
  booking : Booking;
  paid : option bool;
}.

(** The argument of [getWebhooks]. [o_teamId] is
    [booking.eventType?.teamId]: [undefined], [null] or a number. *)
Record GetSubscriberOptions : Type := mkOptions {
  o_userId : option Z;
  o_eventTypeId : option Z;
  o_triggerEvent : WebhookTriggerEvents;
  o_teamId : JSValue;
}.

(** What the delivery endpoint answered. *)
Record Response : Type := mkResponse {
  r_ok : bool;
  r_status : Z;
}.

(** ** Collaborators and observable effects *)

(** How a promise settles. A rejection carries the thrown value. *)
Inductive Outcome (A : Type) : Type :=
| Fulfilled (a : A)
| Rejected (reason : JSValue).
Arguments Fulfilled {A} a.
Arguments Rejected {A} reason.

(** What a run does to the outside world, in the order it does it.
    [EvSettled i o] records that the outcome [o] of the [i]-th delivery of
    the call (the [i]-th element of [promises]) reaches the call: the event
    loop runs the reactions attached to that promise, the [.catch] handler
    and the step of [Promise.all]. Reactions are jobs of their own: they run
    after the code that attached them has run to its next [await], also for
    a promise that was settled already when [sendPayload] returned it. *)
Inductive Event : Type :=
| EvOrganizerRequestEmail (calEvent : JSObj)
| EvAttendeeRequestEmail (calEvent : JSObj) (attendee : JSValue)
| EvGetWebhooks (options : GetSubscriberOptions)
| EvSendPayload (secretKey : option string) (triggerEvent : WebhookTriggerEvents)
    (createdAt : string) (webhook : Webhook) (data : JSObj)
| EvSettled (i : nat) (o : Outcome Response)
| EvConsoleError (args : list JSValue).

(** The imported functions, none of which is part of the sources: they are
    parameters, given by the answers they produce. The mail senders, the
    resolver and the dispatcher are async functions and answer through the
    promise they return. [now i] is what [new Date().toISOString()] reads in
    the [i]-th callback of the map. *)
Record Env : Type := mkEnv {
  sendOrganizerRequestEmail : JSObj -> Outcome unit;
  sendAttendeeRequestEmail : JSObj -> JSValue -> Outcome unit;
  getWebhooks : GetSubscriberOptions -> Outcome (list Webhook);
  sendPayload : option string -> WebhookTriggerEvents -> string -> Webhook ->
                JSObj -> Outcome Response;
  now : nat -> string;
}.

(** ** Async computations *)

(** How a call ends: it returns, it throws (an async function rejects), or
    it is still waiting at an [await] when the schedule is exhausted. *)
Inductive Completion (A : Type) : Type :=
| Returned (a : A)
| Threw (e : JSValue)
| Suspended.
Arguments Returned {A} a.
Arguments Threw {A} e.
Arguments Suspended {A}.

(** A computation: the effects performed so far and how it ended. *)
Definition Async (A : Type) : Type := (list Event * Completion A)%type.

#[global] Instance Async_ret : MRet Async := fun A a => ([], Returned a).

#[global] Instance Async_bind : MBind Async := fun A B k m =>
  match m with
  | (t, Returned a) => let '(t', c) := k a in (t ++ t', c)
  | (t, Threw e) => (t, Threw e)
  | (t, Suspended) => (t, Suspended)
  end.

Definition emit (ev : Event) : Async unit := ([ev], Returned tt).

(** [try { body } catch (e) { handler(e) }] *)
Definition tryCatch {A} (body : Async A) (handler : JSValue -> Async A) : Async A :=
  match body with
  | (t, Threw e) => let '(t', c) := handler e in (t ++ t', c)
  | other => other
  end.

(** [console.error(...args)] *)
Definition consoleError (args : list JSValue) : Async unit :=
  emit (EvConsoleError args).

(** ** Promises *)

(** A promise in flight: what happens when the event loop runs its
    reactions, and its fate: fulfilled with a value ([Returned]), rejected
    ([Threw]), or never settled ([Suspended]). *)
Record Promise (A : Type) : Type := mkPromise {
  onSettle : list Event;
  fate : Completion A;
}.
Arguments mkPromise {A} onSettle fate.
Arguments onSettle {A} p.
Arguments fate {A} p.

(** The fate of a promise that settles with [o]. *)
Definition settle {A} (o : Outcome A) : Completion A :=
  match o with
  | Fulfilled a => Returned a
  | Rejected e => Threw e
  end.

(** [await p] for a single promise. *)
Definition await {A} (p : Promise A) : Async A := (onSettle p, fate p).

(** [p.catch(onRejected)]: a fulfilled [p] passes through; a rejected one
    runs the handler, and the new promise settles as the handler ends. *)
Definition promise_catch {A B} (p : Promise A) (onRejected : JSValue -> Async B)
  : Promise (A + B) :=
  match fate p with
  | Returned a => mkPromise (onSettle p) (Returned (inl a))
  | Threw e =>
      let '(t, c) := onRejected e in
      mkPromise (onSettle p ++ t)
                match c with
                | Returned b => Returned (inr b)
                | Threw e' => Threw e'
                | Suspended => Suspended
                end
  | Suspended => mkPromise (onSettle p) Suspended
  end.

(** The values [Promise.all] fulfils with. *)
Definition fulfilledValues {A} (promises : list (Promise A)) : list A :=
  omap (fun p => match fate p with
                 | Returned a => Some a
                 | _ => None
                 end) promises.

(** [await Promise.all(promises)] under a schedule. [sched] lists the
    positions of [promises] in the order the event loop settles them;
    [settled] marks the ones already settled. An entry that is out of range
    or already settled, or names a promise that never settles, does nothing.
    [Promise.all] fulfils once every input has fulfilled, and rejects as
    soon as one input rejects, without waiting for the others. *)
Fixpoint awaitAll {A} (promises : list (Promise A)) (settled : list bool)
    (sched : list nat) : Async (list A) :=
  if forallb id settled then ([], Returned (fulfilledValues promises))
  else
    match sched with
    | [] => ([], Suspended)
    | i :: sched' =>
        match promises !! i, settled !! i with
        | Some p, Some false =>
            match fate p with
            | Returned _ =>
                let '(t, c) := awaitAll promises (<[i:=true]> settled) sched' in
                (onSettle p ++ t, c)
            | Threw e => (onSettle p, Threw e)
            | Suspended => awaitAll promises settled sched'
            end
        | _, _ => awaitAll promises settled sched'
        end
    end.

Definition promiseAll {A} (promises : list (Promise A)) (sched : list nat)
  : Async (list A) :=
  awaitAll promises (replicate (length promises) false) sched.

(** [array.map(callback)] with a callback that has effects; [i] is the
    index of the first element. *)
Fixpoint mapAsync {A B} (callback : nat -> A -> Async B) (i : nat) (l : list A)
  : Async (list B) :=
  match l with
  | [] => mret []
  | x :: l' =>
      y ← callback i x;
      ys ← mapAsync callback (S i) l';
      mret (y :: ys)
  end.

(** ** Calls of the imported functions

    Each call performs its effect at once and hands back a promise. *)

Definition callSendOrganizerRequestEmail (env : Env) (calEvent : JSObj)
  : Async (Promise unit) :=
  emit (EvOrganizerRequestEmail calEvent);;
  mret (mkPromise [] (settle (sendOrganizerRequestEmail env calEvent))).

Definition callSendAttendeeRequestEmail (env : Env) (calEvent : JSObj)
    (attendee : JSValue) : Async (Promise unit) :=
  emit (EvAttendeeRequestEmail calEvent attendee);;
  mret (mkPromise [] (settle (sendAttendeeRequestEmail env calEvent attendee))).

Definition callGetWebhooks (env : Env) (options : GetSubscriberOptions)
  : Async (Promise (list Webhook)) :=
  emit (EvGetWebhooks options);;
  mret (mkPromise [] (settle (getWebhooks env options))).

(** [sendPayload] is an async function: the request leaves when it is
    called, and it answers through the promise it returns. However early
    that promise settles, what hangs on it ([onSettle]: the outcome reaching
    the call) runs later, when the event loop gets to it. [i] names the
    promise in the trace. *)
Definition callSendPayload (env : Env) (i : nat) (secretKey : option string)
    (triggerEvent : WebhookTriggerEvents) (createdAt : string) (webhook : Webhook)
    (data : JSObj) : Async (Promise Response) :=
  let o := sendPayload env secretKey triggerEvent createdAt webhook data in
  emit (EvSendPayload secretKey triggerEvent createdAt webhook data);;
  mret (mkPromise [EvSettled i o] (settle o)).

(** ** [handleBookingRequested] *)

(** [booking.eventType?.f] *)
Definition optChain {A} (o : option A) (f : A -> JSValue) : JSValue :=
  match o with
  | Some x => f x
  | None => JSUndefined
  end.

(** The options object passed to [getWebhooks] (lines 46-51). *)
Definition webhookOptions (booking : Booking) : GetSubscriberOptions :=
  {| o_userId := b_userId booking;
     o_eventTypeId := b_eventTypeId booking;
     o_triggerEvent := BOOKING_REQUESTED;
     o_teamId := optChain (b_eventType booking) (fun et =>
                   match et_teamId et with
                   | None => JSUndefined
                   | Some t => ofNullableNumber t
                   end) |}.

(** The object literal [eventTypeInfo] (lines 53-60). *)
Definition eventTypeInfo (booking : Booking) : JSObj :=
  let eventType := b_eventType booking in
  <["eventTitle" := optChain eventType (fun et => JSString (et_title et))]>
  (<["eventDescription" := optChain eventType (fun et => ofNullableString (et_description et))]>
  (<["requiresConfirmation" :=
       js_or (optChain eventType (fun et => JSBool (et_requiresConfirmation et))) JSNull]>
  (<["price" := optChain eventType (fun et => JSNumber (et_price et))]>
  (<["currency" := optChain eventType (fun et => JSString (et_currency et))]>
  (<["length" := optChain eventType (fun et => JSNumber (et_length et))]> ∅))))).

(** [{ ...evt, ...eventTypeInfo, bookingId }] (lines 63-67). *)
Definition webhookPayload (evt : JSObj) (eventTypeInfo : JSObj) (bookingId : Z)
  : JSObj :=
  <["bookingId" := JSNumber bookingId]> (spread (spread ∅ evt) eventTypeInfo).

(** The template literal of the log line (line 69). *)
Definition deliveryErrorMessage (sub : Webhook) : string :=
  "Error executing webhook for event: " +:+ triggerName BOOKING_REQUESTED +:+
  ", URL: " +:+ subscriberUrl sub.

(** The callback of [subscribersBookingRequested.map] (lines 62-73). *)
Definition deliverTo (env : Env) (evt : CalendarEvent) (eventTypeInfo : JSObj)
    (bookingId : Z) (i : nat) (sub : Webhook) : Async (Promise (Response + unit)) :=
  p ← callSendPayload env i (secret sub) BOOKING_REQUESTED (now env i) sub
         (webhookPayload (calendarEventObject evt) eventTypeInfo bookingId);
  mret (promise_catch p (fun e =>
          consoleError [JSString (deliveryErrorMessage sub); e])).

(** The body of the [try] block (lines 46-74). *)
Definition webhookSection (env : Env) (sched : list nat) (args : Args) : Async unit :=
  subscribersBookingRequested ←
    (p ← callGetWebhooks env (webhookOptions (booking args)); await p);
  let eventTypeInfo := eventTypeInfo (booking args) in
  promises ← mapAsync (deliverTo env (evt args) eventTypeInfo (bookingId args)) 0
                subscribersBookingRequested;
  promiseAll promises sched;;
  mret tt.

(** The [try] statement (lines 45-78): the webhook section under its
    [catch]. It is what the spec calls [notify], for the one trigger of this
    function. *)
Definition notify (env : Env) (sched : list nat) (args : Args) : Async unit :=
  tryCatch (webhookSection env sched args)
           (fun error => consoleError [error]).

(** The function (lines 17-79). [sched] is the order in which the event
    loop settles the deliveries in flight. *)
Definition handleBookingRequested (env : Env) (sched : list nat) (args : Args)
  : Async unit :=
  (p ← callSendOrganizerRequestEmail env (spread ∅ (calendarEventObject (evt args)));
   await p);;
  (p ← callSendAttendeeRequestEmail env (spread ∅ (calendarEventObject (evt args)))
         (firstAttendee (evt args));
   await p);;
  notify env sched args.

(** ** Reading a trace *)

(** The subscribers [sendPayload] was called for, in call order. *)
Definition attempts (t : list Event) : list Webhook :=
  omap (fun ev => match ev with
                  | EvSendPayload _ _ _ webhook _ => Some webhook
                  | _ => None
                  end) t.

(** The deliveries whose outcome has reached the call, in the order it
    did; such a delivery has finished. *)
Definition settledDeliveries (t : list Event) : list nat :=
  omap (fun ev => match ev with
                  | EvSettled i _ => Some i
                  | _ => None
                  end) t.

(** The calls of [console.error]. *)
Definition consoleErrors (t : list Event) : list (list JSValue) :=
  omap (fun ev => match ev with
                  | EvConsoleError args => Some args
                  | _ => None
                  end) t.

(** The calls of [getWebhooks]. *)
Definition resolutions (t : list Event) : list GetSubscriberOptions :=
  omap (fun ev => match ev with
                  | EvGetWebhooks options => Some options
                  | _ => None
                  end) t.

(** ** A caller that notifies twice *)

(** The webhook section run twice in a row with the same arguments, each
    time in the world it finds. *)
Definition notifyTwice (env1 : Env) (sched1 : list nat) (env2 : Env)
    (sched2 : list nat) (args : Args) : Async unit :=
  notify env1 sched1 args;;
  notify env2 sched2 args.

(** ** Vocabulary of the statements *)

(** The payload every delivery of a call carries. *)
Definition payloadOf (args : Args) : JSObj :=
  webhookPayload (calendarEventObject (evt args)) (eventTypeInfo (booking args))
                 (bookingId args).

(** The trigger-specific fields of this trigger. *)
Definition triggerFields (args : Args) : JSObj :=
  {[ "bookingId" := JSNumber (bookingId args) ]}.

(** The answer to the [i]-th delivery, to subscriber [sub]. *)
Definition deliveryOutcome (env : Env) (args : Args) (i : nat) (sub : Webhook)
  : Outcome Response :=
  sendPayload env (secret sub) BOOKING_REQUESTED (now env i) sub (payloadOf args).

(** The [sendPayload] call of the [i]-th callback. *)
Definition sendEvent (env : Env) (args : Args) (i : nat) (sub : Webhook) : Event :=
  EvSendPayload (secret sub) BOOKING_REQUESTED (now env i) sub (payloadOf args).

(** The line [console.error] writes when the delivery to [sub] fails with
    [e]. *)
Definition deliveryErrorLog (sub : Webhook) (e : JSValue) : list JSValue :=
  [JSString (deliveryErrorMessage sub); e].

(** What the trace gains when the [i]-th delivery settles. *)
Definition settleEvents (env : Env) (args : Args) (i : nat) (sub : Webhook)
  : list Event :=
  EvSettled i (deliveryOutcome env args i sub) ::
  match deliveryOutcome env args i sub with
  | Fulfilled _ => []
  | Rejected e => [EvConsoleError (deliveryErrorLog sub e)]
  end.

(** Both mails went out. *)
Definition emailsSent (env : Env) (args : Args) : Prop :=
  sendOrganizerRequestEmail env (spread ∅ (calendarEventObject (evt args)))
    = Fulfilled tt ∧
  sendAttendeeRequestEmail env (spread ∅ (calendarEventObject (evt args)))
    (firstAttendee (evt args)) = Fulfilled tt.

(** The two mail events every complete run starts with. *)
Definition emailEvents (args : Args) : list Event :=
  [EvOrganizerRequestEmail (spread ∅ (calendarEventObject (evt args)));
   EvAttendeeRequestEmail (spread ∅ (calendarEventObject (evt args)))
     (firstAttendee (evt args))].

(** The schedule lets every one of [n] deliveries settle. *)
Definition covers (sched : list nat) (n : nat) : Prop :=
  ∀ i, (i < n)%nat → i ∈ sched.

(** The positions [awaitAll] settles, in order. *)
Fixpoint settleOrder (settled : list bool) (sched : list nat) : list nat :=
  if forallb id settled then []
  else
    match sched with
    | [] => []
    | i :: sched' =>
        match settled !! i with
        | Some false => i :: settleOrder (<[i:=true]> settled) sched'
        | _ => settleOrder settled sched'
        end
    end.

(** The flags after the whole schedule. *)
Definition flagsAfter (settled : list bool) (sched : list nat) : list bool :=
  foldl (fun st i => <[i:=true]> st) settled sched.

(** The promise the [i]-th callback returns: [sendPayload(...)] with the
    [.catch] handler attached. *)
Definition deliveryPromise (env : Env) (args : Args) (i : nat) (sub : Webhook)
  : Promise (Response + unit) :=
  mkPromise (settleEvents env args i sub)
            (Returned (match deliveryOutcome env args i sub with
                       | Fulfilled r => inl r
                       | Rejected _ => inr tt
                       end)).

(** What the trace gains while the deliveries settle in [order]. *)
Definition settleTrace (env : Env) (args : Args) (subs : list Webhook)
    (order : list nat) : list Event :=
  flat_map (fun i => from_option (settleEvents env args i) [] (subs !! i)) order.

(** How the wait for [n] deliveries ends under [sched]. *)
Definition completionAfter (n : nat) (sched : list nat) : Completion unit :=
  if forallb id (flagsAfter (replicate n false) sched)
  then Returned tt else Suspended.

(** ** A sample run *)

Module Sample.

Definition okResponse : Response := {| r_ok := true; r_status := 200 |}.

Definition sub (n : string) (trig : list WebhookTriggerEvents) (act : bool) : Webhook :=
  {| w_id := n; userId := 101; teamId := None; eventTypeId := Some 1;
     eventTriggers := trig; subscriberUrl := "http://" +:+ n +:+ ".example.com";
     active := act; secret := None; appId := None |}.

Definition subA := sub "a" [BOOKING_REQUESTED] true.
Definition subB := sub "b" [BOOKING_REQUESTED; BOOKING_CREATED] true.
Definition subC := sub "c" [BOOKING_CREATED] true.

(** Another subscription, of another user, at the endpoint of [subA]. *)
Definition subA2 : Webhook :=
  {| w_id := "a2"; userId := 202; teamId := None; eventTypeId := None;
     eventTriggers := [BOOKING_REQUESTED; BOOKING_CANCELLED];
     subscriberUrl := "http://a.example.com"; active := true;
     secret := Some "s3cret"; appId := None |}.

Definition networkError : JSValue := JSString "ECONNREFUSED".

(** Every collaborator answers; delivery to [subA] fails. *)
Definition env (subs : Outcome (list Webhook)) : Env :=
  {| sendOrganizerRequestEmail := fun _ => Fulfilled tt;
     sendAttendeeRequestEmail := fun _ _ => Fulfilled tt;
     getWebhooks := fun _ => subs;
     sendPayload := fun _ _ _ w _ =>
       if decide (w = subA) then Rejected networkError else Fulfilled okResponse;
     now := fun _ => "2023-09-01T10:00:00.000Z" |}.

Definition smtpError : JSValue := JSString "SMTP timeout".

(** The organizer mail cannot be sent. *)
Definition envMailDown : Env :=
  {| sendOrganizerRequestEmail := fun _ => Rejected smtpError;
     sendAttendeeRequestEmail := fun _ _ => Fulfilled tt;
     getWebhooks := fun _ => Fulfilled [subA; subB];
     sendPayload := fun _ _ _ _ _ => Fulfilled okResponse;
     now := fun _ => "2023-09-01T10:00:00.000Z" |}.

Definition booker : JSValue := JSObject [("email", JSString "booker@example.com")].

Definition event : CalendarEvent :=
  {| attendees := [booker];
     otherProps := <["title" := JSString "30min"]>
                   (<["length" := JSNumber 30]>
                   (<["bookingId" := JSNumber 999]> ∅)) |}.

Definition eventType (rc : bool) : EventType :=
  {| et_currency := "usd"; et_description := None; et_id := 1; et_length := 45;
     et_price := 0; et_requiresConfirmation := rc; et_title := "Consult";
     et_teamId := None |}.

Definition args (et : option EventType) : Args :=
  {| evt := event; bookingId := 7;
     booking := {| b_eventType := et; b_eventTypeId := Some 1;
                   b_smsReminderNumber := None; b_userId := Some 101 |};
     paid := None |}.

End Sample.

(** ** More readings of a trace *)

(** The mail events. *)
Definition mails (t : list Event) : list Event :=
  omap (fun ev => match ev with
                  | EvOrganizerRequestEmail _ | EvAttendeeRequestEmail _ _ => Some ev
                  | _ => None
                  end) t.

(** The line the [.catch] handler of the [i]-th delivery writes, if that
    delivery is rejected. *)
Definition failureLog (env : Env) (args : Args) (subs : list Webhook) (i : nat)
  : option (list JSValue) :=
  match subs !! i with
  | Some sub =>
      match deliveryOutcome env args i sub with
      | Rejected e => Some (deliveryErrorLog sub e)
      | Fulfilled _ => None
      end
  | None => None
  end.

(** The six keys of [eventTypeInfo]. *)
Definition eventTypeInfoKeys : gset string :=
  {[ "eventTitle"; "eventDescription"; "requiresConfirmation"; "price";
     "currency"; "length" ]}.

(** ** The helpers of [handleNewBooking.test.ts] *)

(** [process.env.X]: an unset variable reads [undefined]. *)
Definition processEnv (v : option string) : JSValue :=
  match v with
  | Some s => JSString s
  | None => JSUndefined
  end.

(** [const timeout = process.env.CI ? 5000 : 20000] (line 44). *)
Definition timeout (ci : option string) : Z :=
  if truthy (processEnv ci) then 5000 else 20000.

(** [getBasicMockRequestDataForBooking] (lines 829-842). [getDate] is
    imported and not part of the sources: [dateStart] and [dateEnd] are the
    [dateString] its first and second call return. *)
Definition getBasicMockRequestDataForBooking (dateStart dateEnd : string) : JSObj :=
  <["start" := JSString (dateStart +:+ "T04:00:00.000Z")]>
  (<["end" := JSString (dateEnd +:+ "T04:30:00.000Z")]>
  (<["eventTypeSlug" := JSString "no-confirmation"]>
  (<["timeZone" := JSString "Asia/Calcutta"]>
  (<["language" := JSString "en"]>
  (<["bookingUid" := JSString "bvCmP5rSquAazGSA7hz7ZP"]>
  (<["user" := JSString "teampro"]>
  (<["metadata" := JSObject []]>
  (<["hasHashedBookingLink" := JSBool false]>
  (<["hashedLink" := JSNull]> ∅))))))))).

(** [getMockRequestDataForBooking] (lines 844-859):
    [{ ...getBasicMockRequestDataForBooking(), ...data }]. *)
Definition getMockRequestDataForBooking (dateStart dateEnd : string) (data : JSObj)
  : JSObj :=
  spread (spread ∅ (getBasicMockRequestDataForBooking dateStart dateEnd)) data.

(** The keys [getBasicMockRequestDataForBooking] sets. *)
Definition basicRequestKeys : gset string :=
  {[ "start"; "end"; "eventTypeSlug"; "timeZone"; "language"; "bookingUid";
     "user"; "metadata"; "hasHashedBookingLink"; "hashedLink" ]}.

(** * Auxiliary results *)

(** ** Schedules *)

Lemma forallb_id_lookup (l : list bool) :
  forallb id l = true ↔ ∀ i, (i < length l)%nat → l !! i = Some true.
Proof.
  induction l as [|b l IH]; simpl.
  - split; [intros _ i Hi; lia | done].
  - rewrite andb_true_iff, IH. split.
    + intros [Hb Hl] [|i] Hi; simpl.
      * unfold id in Hb. by rewrite Hb.
      * apply Hl. lia.
    + intros H. split.
      * specialize (H 0%nat ltac:(lia)). simpl in H. by inversion H.
      * intros i Hi. apply (H (S i)). lia.
Qed.

Lemma flagsAfter_cons (settled : list bool) (i : nat) (sched : list nat) :
  flagsAfter settled (i :: sched) = flagsAfter (<[i:=true]> settled) sched.
Proof. reflexivity. Qed.

#[local] Arguments flagsAfter : simpl never.

Lemma flagsAfter_lookup (sched : list nat) (settled : list bool) (i : nat) :
  flagsAfter settled sched !! i =
  (fun b => b || bool_decide (i ∈ sched)) <$> settled !! i.
Proof.
  unfold flagsAfter.
  revert settled. induction sched as [|j sched IH]; intros settled; simpl.
  - destruct (settled !! i) as [b|]; simpl; [|done].
    by rewrite orb_false_r.
  - rewrite IH. destruct (decide (i = j)) as [->|Hne].
    + destruct (settled !! j) as [b|] eqn:Hj.
      * rewrite list_lookup_insert_eq by (by eapply lookup_lt_Some). simpl.
        rewrite (bool_decide_eq_true_2 (j ∈ j :: sched)) by apply list_elem_of_here.
        by rewrite orb_true_r.
      * rewrite list_insert_ge by (by apply lookup_ge_None). by rewrite Hj.
    + rewrite list_lookup_insert_ne by done.
      destruct (settled !! i) as [b|]; simpl; [|done].
      do 2 f_equal. apply bool_decide_ext. rewrite elem_of_cons.
      split; [by right | by intros [?|?]].
Qed.

Lemma length_flagsAfter (sched : list nat) (settled : list bool) :
  length (flagsAfter settled sched) = length settled.
Proof.
  unfold flagsAfter. revert settled.
  induction sched as [|j sched IH]; intros settled; simpl; [done|].
  by rewrite IH, length_insert.
Qed.

Lemma flagsAfter_done (sched : list nat) (settled : list bool) :
  forallb id (flagsAfter settled sched) = true ↔
  ∀ i, (i < length settled)%nat → settled !! i = Some true ∨ i ∈ sched.
Proof.
  rewrite forallb_id_lookup, length_flagsAfter.
  split; intros H i Hi; specialize (H i Hi); rewrite flagsAfter_lookup in *.
  - destruct (settled !! i) as [b|]; simpl in H; [|done].
    destruct b; [by left|]. right. simpl in H.
    inversion H as [Hb]. by apply bool_decide_eq_true in Hb.
  - destruct (lookup_lt_is_Some_2 settled i Hi) as [b Hb]. rewrite Hb. simpl.
    f_equal. destruct H as [H|H].
    + rewrite Hb in H. by inversion H.
    + rewrite (bool_decide_eq_true_2 _ H). apply orb_true_r.
Qed.

Lemma flagsAfter_stable (sched : list nat) (settled : list bool) :
  forallb id settled = true → forallb id (flagsAfter settled sched) = true.
Proof.
  rewrite flagsAfter_done, forallb_id_lookup. intros H i Hi. left. by apply H.
Qed.

Lemma insert_settled (settled : list bool) (i : nat) :
  settled !! i ≠ Some false → <[i:=true]> settled = settled.
Proof.
  intros H. destruct (settled !! i) as [[]|] eqn:Hi; [|done|].
  - by apply list_insert_id.
  - apply list_insert_ge. by apply lookup_ge_None.
Qed.

Lemma settleOrder_elem (sched : list nat) (settled : list bool) (j : nat) :
  j ∈ settleOrder settled sched → settled !! j = Some false ∧ j ∈ sched.
Proof.
  revert settled. induction sched as [|i sched IH]; intros settled; simpl.
  - destruct (forallb id settled); intros H; by apply elem_of_nil in H.
  - destruct (forallb id settled); [intros H; by apply elem_of_nil in H|].
    destruct (settled !! i) as [[]|] eqn:Hi.
    + intros H. apply IH in H as [? ?]. split; [done|]. by right.
    + rewrite elem_of_cons. intros [->|H].
      * split; [done|]. by left.
      * apply IH in H as [H ?]. split; [|by right].
        destruct (decide (j = i)) as [->|Hne].
        -- rewrite list_lookup_insert_eq in H by (by eapply lookup_lt_Some).
           done.
        -- by rewrite list_lookup_insert_ne in H.
    + intros H. apply IH in H as [? ?]. split; [done|]. by right.
Qed.

Lemma settleOrder_NoDup (sched : list nat) (settled : list bool) :
  NoDup (settleOrder settled sched).
Proof.
  revert settled. induction sched as [|i sched IH]; intros settled; simpl.
  - destruct (forallb id settled); constructor.
  - destruct (forallb id settled); [constructor|].
    destruct (settled !! i) as [[]|] eqn:Hi; [apply IH| |apply IH].
    constructor; [|apply IH].
    intros H. apply settleOrder_elem in H as [H _].
    rewrite list_lookup_insert_eq in H by (by eapply lookup_lt_Some). done.
Qed.

Section AwaitAll.
Context {A : Type} (promises : list (Promise A)).
Hypothesis all_fulfil : ∀ p, p ∈ promises → ∃ a, fate p = Returned a.

Lemma awaitAll_fulfil (sched : list nat) (settled : list bool) :
  length settled = length promises →
  awaitAll promises settled sched =
  (flat_map (fun i => from_option onSettle [] (promises !! i))
            (settleOrder settled sched),
   if forallb id (flagsAfter settled sched)
   then Returned (fulfilledValues promises) else Suspended).
Proof.
  revert settled. induction sched as [|i sched IH]; intros settled Hlen; simpl.
  - unfold flagsAfter; simpl. by destruct (forallb id settled).
  - destruct (forallb id settled) eqn:Hdone.
    { by rewrite flagsAfter_stable. }
    rewrite flagsAfter_cons.
    destruct (settled !! i) as [[]|] eqn:Hi.
    + rewrite insert_settled by congruence.
      destruct (promises !! i); by rewrite IH.
    + destruct (promises !! i) as [p|] eqn:Hp.
      * destruct (all_fulfil p) as [a Ha]; [by eapply list_elem_of_lookup_2|].
        rewrite Ha, IH by (by rewrite length_insert).
        simpl. by rewrite Hp.
      * apply lookup_ge_None in Hp. apply lookup_lt_Some in Hi. lia.
    + rewrite insert_settled by congruence.
      destruct (promises !! i); by rewrite IH.
Qed.
End AwaitAll.

Lemma deliverTo_eq env args i sub :
  deliverTo env (evt args) (eventTypeInfo (booking args)) (bookingId args) i sub =
  ([sendEvent env args i sub], Returned (deliveryPromise env args i sub)).
Proof.
  unfold deliverTo, callSendPayload, deliveryPromise, settleEvents, sendEvent.
  unfold deliveryOutcome, payloadOf. cbn.
  by destruct (sendPayload env _ _ _ _ _).
Qed.

Lemma mapAsync_deliverTo env args subs i :
  mapAsync (deliverTo env (evt args) (eventTypeInfo (booking args)) (bookingId args))
           i subs =
  (imap (fun j => sendEvent env args (i + j)) subs,
   Returned (imap (fun j => deliveryPromise env args (i + j)) subs)).
Proof.
  revert i. induction subs as [|sub subs IH]; intros i; [done|].
  cbn [mapAsync]. rewrite deliverTo_eq, IH. cbn.
  rewrite Nat.add_0_r, app_nil_r.
  f_equal; [|f_equal]; f_equal; apply imap_ext; intros j x _; simpl; f_equal; lia.
Qed.

Lemma promiseAll_deliveries env args subs sched :
  (promiseAll (imap (deliveryPromise env args) subs) sched;; mret tt : Async unit) =
  (settleTrace env args subs (settleOrder (replicate (length subs) false) sched),
   completionAfter (length subs) sched).
Proof.
  unfold promiseAll. rewrite awaitAll_fulfil.
  - rewrite length_imap. unfold completionAfter, settleTrace. cbn.
    destruct (forallb id _); cbn; rewrite ?app_nil_r; f_equal.
    all: apply flat_map_ext; intros i; rewrite list_lookup_imap;
      by destruct (subs !! i).
  - intros p Hp. apply list_elem_of_lookup in Hp as [i Hi].
    rewrite list_lookup_imap in Hi. destruct (subs !! i); [|done].
    inversion Hi. eauto.
  - by rewrite length_replicate, length_imap.
Qed.

Lemma webhookSection_resolved env sched args subs :
  getWebhooks env (webhookOptions (booking args)) = Fulfilled subs →
  webhookSection env sched args =
  (EvGetWebhooks (webhookOptions (booking args)) ::
     imap (sendEvent env args) subs ++
     settleTrace env args subs (settleOrder (replicate (length subs) false) sched),
   completionAfter (length subs) sched).
Proof.
  intros Hsubs. unfold webhookSection, callGetWebhooks, await.
  cbn. rewrite Hsubs. cbn.
  rewrite mapAsync_deliverTo. cbn.
  pose proof (promiseAll_deliveries env args subs sched) as H. cbn in H.
  destruct (promiseAll _ _) as [t [vs|e|]]; cbn in *.
  all: inversion H; subst; by rewrite ?app_nil_r.
Qed.

Lemma webhookSection_rejected env sched args e :
  getWebhooks env (webhookOptions (booking args)) = Rejected e →
  webhookSection env sched args =
  ([EvGetWebhooks (webhookOptions (booking args))], Threw e).
Proof.
  intros Hsubs. unfold webhookSection, callGetWebhooks, await.
  cbn. by rewrite Hsubs.
Qed.

Lemma notify_resolved env sched args subs :
  getWebhooks env (webhookOptions (booking args)) = Fulfilled subs →
  notify env sched args =
  (EvGetWebhooks (webhookOptions (booking args)) ::
     imap (sendEvent env args) subs ++
     settleTrace env args subs (settleOrder (replicate (length subs) false) sched),
   completionAfter (length subs) sched).
Proof.
  intros Hsubs. unfold notify.
  rewrite (webhookSection_resolved _ _ _ subs) by done.
  unfold tryCatch, completionAfter. by destruct (forallb id _).
Qed.

Lemma notify_rejected env sched args e :
  getWebhooks env (webhookOptions (booking args)) = Rejected e →
  notify env sched args =
  ([EvGetWebhooks (webhookOptions (booking args)); EvConsoleError [e]],
   Returned tt).
Proof.
  intros Hsubs. unfold notify. by rewrite (webhookSection_rejected _ _ _ e).
Qed.

Lemma run_after_emails env sched args :
  emailsSent env args →
  handleBookingRequested env sched args =
  (emailEvents args ++ (notify env sched args).1, (notify env sched args).2).
Proof.
  intros [Ho Ha]. unfold handleBookingRequested.
  unfold callSendOrganizerRequestEmail, callSendAttendeeRequestEmail, await.
  cbn. rewrite Ho. cbn. rewrite Ha. cbn.
  by destruct (notify env sched args).
Qed.

Lemma run_resolved env sched args subs :
  emailsSent env args →
  getWebhooks env (webhookOptions (booking args)) = Fulfilled subs →
  handleBookingRequested env sched args =
  (emailEvents args ++
     EvGetWebhooks (webhookOptions (booking args)) ::
     imap (sendEvent env args) subs ++
     settleTrace env args subs (settleOrder (replicate (length subs) false) sched),
   completionAfter (length subs) sched).
Proof.
  intros Hmail Hsubs. rewrite run_after_emails by done.
  by rewrite (notify_resolved _ _ _ subs).
Qed.

Lemma settleOrder_sched (sched : list nat) (settled : list bool) (j : nat) :
  settled !! j = Some false → j ∈ sched → j ∈ settleOrder settled sched.
Proof.
  revert settled. induction sched as [|i sched IH]; intros settled Hj Hin.
  - by apply elem_of_nil in Hin.
  - simpl. destruct (forallb id settled) eqn:Hdone.
    + apply forallb_id_lookup with (i := j) in Hdone; [congruence|].
      by eapply lookup_lt_Some.
    + apply elem_of_cons in Hin.
      destruct (decide (j = i)) as [->|Hne].
      * rewrite Hj. by left.
      * destruct Hin as [?|Hin]; [done|].
        destruct (settled !! i) as [[]|]; [by apply IH| |by apply IH].
        right. apply IH; [|done]. by rewrite list_lookup_insert_ne.
Qed.

Lemma settleOrder_replicate (n : nat) (sched : list nat) (i : nat) :
  i ∈ settleOrder (replicate n false) sched ↔ (i < n)%nat ∧ i ∈ sched.
Proof.
  split.
  - intros H. apply settleOrder_elem in H as [H ?]. split; [|done].
    apply lookup_lt_Some in H. by rewrite length_replicate in H.
  - intros [Hi Hin]. apply settleOrder_sched; [|done].
    by apply lookup_replicate_2.
Qed.

Lemma completionAfter_returned (n : nat) (sched : list nat) :
  completionAfter n sched = Returned tt ↔ covers sched n.
Proof.
  unfold completionAfter, covers.
  destruct (forallb id _) eqn:Hall.
  - split; [intros _|done]. intros i Hi.
    pose proof (proj1 (flagsAfter_done _ _) Hall i) as Hcase.
    rewrite length_replicate in Hcase. destruct (Hcase Hi) as [Hs|Hs]; [|done].
    rewrite lookup_replicate_2 in Hs by done. done.
  - split; [done|]. intros Hcov.
    assert (forallb id (flagsAfter (replicate n false) sched) = true); [|congruence].
    apply flagsAfter_done. intros i Hi. right. apply Hcov.
    by rewrite length_replicate in Hi.
Qed.

Lemma completionAfter_cases (n : nat) (sched : list nat) :
  completionAfter n sched = Returned tt ∨ completionAfter n sched = Suspended.
Proof. unfold completionAfter. destruct (forallb id _); auto. Qed.

(** ** Reading the trace of a run *)

Lemma attempts_app t1 t2 : attempts (t1 ++ t2) = attempts t1 ++ attempts t2.
Proof. apply omap_app. Qed.

Lemma settledDeliveries_app t1 t2 :
  settledDeliveries (t1 ++ t2) = settledDeliveries t1 ++ settledDeliveries t2.
Proof. apply omap_app. Qed.

Lemma attempts_sends env args subs i :
  attempts (imap (fun j => sendEvent env args (i + j)) subs) = subs.
Proof.
  revert i. induction subs as [|sub subs IH]; intros i; [done|].
  cbn. f_equal. rewrite <- (IH (S i)) at 2. f_equal.
  apply imap_ext. intros j x _. simpl. f_equal. lia.
Qed.

Lemma settledDeliveries_sends env args subs i :
  settledDeliveries (imap (fun j => sendEvent env args (i + j)) subs) = [].
Proof.
  revert i. induction subs as [|sub subs IH]; intros i; [done|].
  cbn. rewrite <- (IH (S i)). f_equal.
  apply imap_ext. intros j x _. simpl. f_equal. lia.
Qed.

Lemma attempts_imap_sendEvent env args subs :
  attempts (imap (sendEvent env args) subs) = subs.
Proof. exact (attempts_sends env args subs 0). Qed.

Lemma settledDeliveries_imap_sendEvent env args subs :
  settledDeliveries (imap (sendEvent env args) subs) = [].
Proof. exact (settledDeliveries_sends env args subs 0). Qed.

Lemma attempts_settleTrace env args subs order :
  attempts (settleTrace env args subs order) = [].
Proof.
  unfold settleTrace. induction order as [|i order IH]; [done|].
  simpl. rewrite attempts_app, IH, app_nil_r.
  destruct (subs !! i) as [sub|]; [|done].
  unfold settleEvents. simpl. by destruct (deliveryOutcome env args i sub).
Qed.

Lemma settledDeliveries_settleTrace env args subs order :
  (∀ i, i ∈ order → (i < length subs)%nat) →
  settledDeliveries (settleTrace env args subs order) = order.
Proof.
  unfold settleTrace. induction order as [|i order IH]; intros Hlt; [done|].
  simpl. rewrite settledDeliveries_app, IH.
  - destruct (lookup_lt_is_Some_2 subs i) as [sub Hsub].
    { apply Hlt. by left. }
    rewrite Hsub. unfold settleEvents. simpl.
    by destruct (deliveryOutcome env args i sub).
  - intros j Hj. apply Hlt. by right.
Qed.

Lemma settleTrace_elem env args subs order i sub :
  subs !! i = Some sub → i ∈ order →
  ∀ ev, ev ∈ settleEvents env args i sub → ev ∈ settleTrace env args subs order.
Proof.
  intros Hsub Hin ev Hev. unfold settleTrace.
  apply list_elem_of_In, in_flat_map. exists i. split.
  - by apply list_elem_of_In.
  - rewrite Hsub. cbn [from_option]. by apply list_elem_of_In.
Qed.

(** ** The ways a run can go *)

Lemma run_organizer_rejected env sched args e :
  sendOrganizerRequestEmail env (spread ∅ (calendarEventObject (evt args)))
    = Rejected e →
  handleBookingRequested env sched args =
  ([EvOrganizerRequestEmail (spread ∅ (calendarEventObject (evt args)))], Threw e).
Proof.
  intros Ho. unfold handleBookingRequested, callSendOrganizerRequestEmail, await.
  cbn. by rewrite Ho.
Qed.

Lemma run_attendee_rejected env sched args e :
  sendOrganizerRequestEmail env (spread ∅ (calendarEventObject (evt args)))
    = Fulfilled tt →
  sendAttendeeRequestEmail env (spread ∅ (calendarEventObject (evt args)))
    (firstAttendee (evt args)) = Rejected e →
  handleBookingRequested env sched args = (emailEvents args, Threw e).
Proof.
  intros Ho Ha. unfold handleBookingRequested.
  unfold callSendOrganizerRequestEmail, callSendAttendeeRequestEmail, await.
  cbn. rewrite Ho. cbn. by rewrite Ha.
Qed.

Lemma run_resolver_rejected env sched args e :
  emailsSent env args →
  getWebhooks env (webhookOptions (booking args)) = Rejected e →
  handleBookingRequested env sched args =
  (emailEvents args ++
     [EvGetWebhooks (webhookOptions (booking args)); EvConsoleError [e]],
   Returned tt).
Proof.
  intros Hmail Hsubs. rewrite run_after_emails by done.
  by rewrite (notify_rejected _ _ _ e).
Qed.

Lemma notify_never_throws env sched args e :
  (notify env sched args).2 ≠ Threw e.
Proof.
  destruct (getWebhooks env (webhookOptions (booking args))) as [subs|e'] eqn:Hsubs.
  - rewrite (notify_resolved _ _ _ subs) by done. simpl.
    by destruct (completionAfter_cases (length subs) sched) as [-> | ->].
  - by rewrite (notify_rejected _ _ _ e').
Qed.

Lemma run_never_throws_after_emails env sched args e :
  emailsSent env args → (handleBookingRequested env sched args).2 ≠ Threw e.
Proof.
  intros Hmail. rewrite run_after_emails by done. apply notify_never_throws.
Qed.

(** ** What the webhook section does with resolved subscribers *)

Lemma notify_attempts env sched args subs :
  getWebhooks env (webhookOptions (booking args)) = Fulfilled subs →
  attempts (notify env sched args).1 = subs.
Proof.
  intros Hsubs. rewrite (notify_resolved _ _ _ subs) by done. simpl.
  rewrite attempts_app, attempts_imap_sendEvent, attempts_settleTrace.
  by rewrite app_nil_r.
Qed.

Lemma notify_settledDeliveries env sched args subs :
  getWebhooks env (webhookOptions (booking args)) = Fulfilled subs →
  settledDeliveries (notify env sched args).1 =
  settleOrder (replicate (length subs) false) sched.
Proof.
  intros Hsubs. rewrite (notify_resolved _ _ _ subs) by done. simpl.
  rewrite settledDeliveries_app, settledDeliveries_imap_sendEvent.
  rewrite settledDeliveries_settleTrace; [done|].
  intros i Hi. by apply settleOrder_replicate in Hi as [? _].
Qed.

Lemma notify_completion env sched args subs :
  getWebhooks env (webhookOptions (booking args)) = Fulfilled subs →
  (notify env sched args).2 = completionAfter (length subs) sched.
Proof. intros Hsubs. by rewrite (notify_resolved _ _ _ subs). Qed.

Lemma notify_settled_events env sched args subs i sub :
  getWebhooks env (webhookOptions (booking args)) = Fulfilled subs →
  subs !! i = Some sub → i ∈ sched →
  ∀ ev, ev ∈ settleEvents env args i sub → ev ∈ (notify env sched args).1.
Proof.
  intros Hsubs Hsub Hin ev Hev.
  rewrite (notify_resolved _ _ _ subs) by done. simpl.
  right. apply elem_of_app. right.
  apply (settleTrace_elem _ _ _ _ i sub); [done| |done].
  apply settleOrder_replicate. split; [by eapply lookup_lt_Some|done].
Qed.

Lemma notify_outcome_logged env sched args subs i sub :
  getWebhooks env (webhookOptions (booking args)) = Fulfilled subs →
  subs !! i = Some sub → i ∈ sched →
  EvSettled i (deliveryOutcome env args i sub) ∈ (notify env sched args).1 ∧
  ∀ e, deliveryOutcome env args i sub = Rejected e →
       EvConsoleError (deliveryErrorLog sub e) ∈ (notify env sched args).1.
Proof.
  intros Hsubs Hsub Hin. split.
  - apply (notify_settled_events _ _ _ subs i sub); [done..|]. by left.
  - intros e He. apply (notify_settled_events _ _ _ subs i sub); [done..|].
    unfold settleEvents. rewrite He. right. by left.
Qed.

Lemma notifyTwice_returned env1 sched1 env2 sched2 args :
  (notify env1 sched1 args).2 = Returned tt →
  notifyTwice env1 sched1 env2 sched2 args =
  ((notify env1 sched1 args).1 ++ (notify env2 sched2 args).1,
   (notify env2 sched2 args).2).
Proof.
  unfold notifyTwice, mbind, Async_bind.
  destruct (notify env1 sched1 args) as [t1 c1]. simpl.
  intros ->. by destruct (notify env2 sched2 args).
Qed.

Lemma run_sends env sched args ev :
  ev ∈ (handleBookingRequested env sched args).1 →
  (∃ i sub, ev = sendEvent env args i sub) ∨
  (∀ s tr ts w data, ev ≠ EvSendPayload s tr ts w data).
Proof.
  destruct (sendOrganizerRequestEmail env
              (spread ∅ (calendarEventObject (evt args)))) as [[]|e] eqn:Ho.
  2:{ rewrite (run_organizer_rejected _ _ _ e) by done. simpl.
      intros ->%list_elem_of_singleton. by right. }
  destruct (sendAttendeeRequestEmail env
              (spread ∅ (calendarEventObject (evt args)))
              (firstAttendee (evt args))) as [[]|e] eqn:Ha.
  2:{ rewrite (run_attendee_rejected _ _ _ e) by done. simpl. unfold emailEvents.
      rewrite !elem_of_cons, elem_of_nil. intros [->|[->|[]]]; by right. }
  assert (emailsSent env args) as Hmail by done.
  destruct (getWebhooks env (webhookOptions (booking args))) as [subs|e] eqn:Hs.
  - rewrite (run_resolved _ _ _ subs) by done. simpl.
    rewrite !elem_of_cons, elem_of_app.
    intros [->|[->|[->|[Hin|Hin]]]]; try by right.
    + left. apply elem_of_lookup_imap_1 in Hin as (i & sub & -> & _). eauto.
    + right. unfold settleTrace in Hin.
      apply list_elem_of_In, in_flat_map in Hin as (i & _ & Hin).
      destruct (subs !! i) as [sub|]; [|done]. simpl in Hin.
      destruct Hin as [<-|Hin]; [done|].
      destruct (deliveryOutcome env args i sub); [done|].
      destruct Hin as [<-|[]]. done.
  - rewrite (run_resolver_rejected _ _ _ e) by done. simpl.
    rewrite !elem_of_cons, elem_of_nil. intros [->|[->|[->|[->|[]]]]]; by right.
Qed.

(** ** The payload *)

Lemma webhookPayload_lookup (calEvent info : JSObj) (bid : Z) (k : string) :
  webhookPayload calEvent info bid !! k =
  match ({[ "bookingId" := JSNumber bid ]} : JSObj) !! k with
  | Some v => Some v
  | None => match info !! k with
            | Some v => Some v
            | None => calEvent !! k
            end
  end.
Proof.
  unfold webhookPayload, spread.
  destruct (decide (k = "bookingId")) as [->|Hne].
  - by rewrite lookup_insert_eq, lookup_singleton_eq.
  - rewrite lookup_insert_ne, lookup_singleton_ne by done.
    rewrite !lookup_union, lookup_empty.
    destruct (info !! k), (calEvent !! k); done.
Qed.

Lemma eventTypeInfo_requiresConfirmation (b : Booking) :
  eventTypeInfo b !! "requiresConfirmation" =
  Some (js_or (optChain (b_eventType b) (fun et => JSBool (et_requiresConfirmation et)))
              JSNull).
Proof. unfold eventTypeInfo. by simplify_map_eq. Qed.

Lemma payloadOf_eventTypeInfo args k v :
  k ≠ "bookingId" → eventTypeInfo (booking args) !! k = Some v →
  payloadOf args !! k = Some v.
Proof.
  intros Hne Hk. unfold payloadOf. rewrite webhookPayload_lookup.
  rewrite lookup_singleton_ne by done. by rewrite Hk.
Qed.

(** ** Counting attempts *)



Lemma covers_sample : covers [1; 0]%nat 2.
Proof.
  intros i Hi. destruct i as [|[|i]]; [| |lia].
  - apply list_elem_of_further, list_elem_of_here.
  - apply list_elem_of_here.
Defined.

(** ** Sample runs *)

(** Two subscribers, the first one unreachable, the second settling first:
    both are attempted, both deliveries finish, one line is logged. *)
Example run_with_one_failure :
  let '(t, c) := handleBookingRequested
                   (Sample.env (Fulfilled [Sample.subA; Sample.subB]))
                   [1; 0]%nat (Sample.args None) in
  (attempts t, settledDeliveries t, consoleErrors t, c) =
  ([Sample.subA; Sample.subB], [1; 0]%nat,
   [[JSString "Error executing webhook for event: BOOKING_REQUESTED, URL: http://a.example.com";
     Sample.networkError]],
   Returned tt).
Proof. reflexivity. Qed.

(** The same call while the first delivery has not settled yet. *)
Example run_still_waiting :
  let '(t, c) := handleBookingRequested
                   (Sample.env (Fulfilled [Sample.subA; Sample.subB]))
                   [1]%nat (Sample.args None) in
  (attempts t, settledDeliveries t, consoleErrors t, c) =
  ([Sample.subA; Sample.subB], [1]%nat, [], Suspended).
Proof. reflexivity. Qed.

(** [Promise.all] over promises without a [.catch]: the first rejection
    ends the wait while the other promise is still in flight. *)
Example promiseAll_without_catch :
  promiseAll [mkPromise [EvSettled 0 (Rejected Sample.networkError)]
                        (Threw Sample.networkError);
              mkPromise [EvSettled 1 (Fulfilled Sample.okResponse)]
                        (Returned Sample.okResponse)]
             [0; 1]%nat =
  ([EvSettled 0 (Rejected Sample.networkError)], Threw Sample.networkError).
Proof. reflexivity. Qed.

(** The coordinator delivers to whatever the resolver hands back: with a
    storage double that returns a row enabled for [BOOKING_CREATED] only,
    as in the booking-request test of [handleNewBooking.test.ts], the row
    receives the [BOOKING_REQUESTED] delivery. *)
Example run_with_unfiltered_rows :
  attempts (handleBookingRequested (Sample.env (Fulfilled [Sample.subC]))
              [0]%nat (Sample.args None)).1 = [Sample.subC].
Proof. reflexivity. Qed.

(** * Properties of the specification *)

(** C1. For every input, when [getWebhooks] rejects with [e] the webhook
    section (the [try] statement) does exactly this: it asks the resolver,
    logs [e] with [console.error], and returns normally; [sendPayload] is
    never called and nothing is thrown. The whole call, once both mails are
    out, is the two mails followed by the same, and returns normally. *)
Theorem resolver_failure_is_logged_and_swallowed env sched args e :
  getWebhooks env (webhookOptions (booking args)) = Rejected e →
  notify env sched args =
    ([EvGetWebhooks (webhookOptions (booking args)); EvConsoleError [e]],
     Returned tt) ∧
  attempts (notify env sched args).1 = [] ∧
  consoleErrors (notify env sched args).1 = [[e]] ∧
  (emailsSent env args →
   handleBookingRequested env sched args =
     (emailEvents args ++
        [EvGetWebhooks (webhookOptions (booking args)); EvConsoleError [e]],
      Returned tt) ∧
   attempts (handleBookingRequested env sched args).1 = []).
Proof.
  intros Hrej. rewrite (notify_rejected _ _ _ e) by done.
  split; [done|]. split; [done|]. split; [done|].
  intros Hmail. by rewrite (run_resolver_rejected _ _ _ e).
Qed.

Lemma resolver_failure_witness :
  notify (Sample.env (Rejected Sample.networkError)) [] (Sample.args None) =
    ([EvGetWebhooks (webhookOptions (booking (Sample.args None)));
      EvConsoleError [Sample.networkError]],
     Returned tt) ∧
  handleBookingRequested (Sample.env (Rejected Sample.networkError)) [] (Sample.args None) =
    (emailEvents (Sample.args None) ++
       [EvGetWebhooks (webhookOptions (booking (Sample.args None)));
        EvConsoleError [Sample.networkError]],
     Returned tt).
Proof.
  destruct (resolver_failure_is_logged_and_swallowed
              (Sample.env (Rejected Sample.networkError)) [] (Sample.args None)
              Sample.networkError eq_refl) as (Hnotify & _ & _ & Hrun).
  split; [exact Hnotify|].
  exact (proj1 (Hrun (conj eq_refl eq_refl))).
Defined.

(** C2. With [subs] resolved, [sendPayload] is called once for each
    subscriber, in order, whatever the other deliveries answer. A delivery
    the event loop settles finishes with its own outcome, and a rejected one
    is logged by its own handler with its own URL. The webhook section
    never throws, it returns when the schedule lets every delivery settle,
    and the call around it does not throw either. *)
Theorem delivery_failures_are_isolated env sched args subs :
  getWebhooks env (webhookOptions (booking args)) = Fulfilled subs →
  attempts (notify env sched args).1 = subs ∧
  (∀ i sub, subs !! i = Some sub → i ∈ sched →
     EvSettled i (deliveryOutcome env args i sub) ∈ (notify env sched args).1 ∧
     ∀ e, deliveryOutcome env args i sub = Rejected e →
          EvConsoleError (deliveryErrorLog sub e) ∈ (notify env sched args).1) ∧
  (∀ e, (notify env sched args).2 ≠ Threw e) ∧
  (covers sched (length subs) → (notify env sched args).2 = Returned tt) ∧
  (emailsSent env args →
   ∀ e, (handleBookingRequested env sched args).2 ≠ Threw e).
Proof.
  intros Hsubs. split; [by apply notify_attempts|]. split; [|split; [|split]].
  - intros i sub Hsub Hin. by apply (notify_outcome_logged _ _ _ subs).
  - intros e. apply notify_never_throws.
  - intros Hcov. rewrite (notify_completion _ _ _ subs) by done.
    by apply completionAfter_returned.
  - intros Hmail e. by apply run_never_throws_after_emails.
Qed.

Lemma delivery_failures_witness :
  attempts (notify (Sample.env (Fulfilled [Sample.subA; Sample.subB]))
              [1; 0]%nat (Sample.args None)).1 = [Sample.subA; Sample.subB] ∧
  (notify (Sample.env (Fulfilled [Sample.subA; Sample.subB]))
     [1; 0]%nat (Sample.args None)).2 = Returned tt ∧
  EvSettled 1 (Fulfilled Sample.okResponse)
    ∈ (notify (Sample.env (Fulfilled [Sample.subA; Sample.subB]))
         [1; 0]%nat (Sample.args None)).1 ∧
  EvConsoleError (deliveryErrorLog Sample.subA Sample.networkError)
    ∈ (notify (Sample.env (Fulfilled [Sample.subA; Sample.subB]))
         [1; 0]%nat (Sample.args None)).1.
Proof.
  destruct (delivery_failures_are_isolated
              (Sample.env (Fulfilled [Sample.subA; Sample.subB])) [1; 0]%nat
              (Sample.args None) [Sample.subA; Sample.subB] eq_refl)
    as (Hatt & Hsettle & _ & Hret & _).
  split; [exact Hatt|]. split; [exact (Hret covers_sample)|].
  split.
  - exact (proj1 (Hsettle 1%nat Sample.subB eq_refl (list_elem_of_here _ _))).
  - exact (proj2 (Hsettle 0%nat Sample.subA eq_refl
                    (list_elem_of_further _ _ _ (list_elem_of_here _ _)))
                 Sample.networkError eq_refl).
Defined.

(** C3. A key of the payload holds the trigger-specific value
    ([bookingId]) when there is one, else the value of [eventTypeInfo] when
    there is one, else the value of the calendar event; the same holds of
    the merge of any two objects and booking id; and every delivery of a
    run carries that payload. *)
Theorem payload_precedence env sched args :
  (∀ k, payloadOf args !! k =
        match triggerFields args !! k with
        | Some v => Some v
        | None => match eventTypeInfo (booking args) !! k with
                  | Some v => Some v
                  | None => calendarEventObject (evt args) !! k
                  end
        end) ∧
  (∀ (calEvent info : JSObj) bid k,
     webhookPayload calEvent info bid !! k =
     match ({[ "bookingId" := JSNumber bid ]} : JSObj) !! k with
     | Some v => Some v
     | None => match info !! k with
               | Some v => Some v
               | None => calEvent !! k
               end
     end) ∧
  (∀ s tr ts w data,
     EvSendPayload s tr ts w data ∈ (handleBookingRequested env sched args).1 →
     data = payloadOf args).
Proof.
  split; [|split].
  - intros k. apply webhookPayload_lookup.
  - apply webhookPayload_lookup.
  - intros s tr ts w data Hin.
    apply run_sends in Hin as [(i & sub & Heq)|Hne].
    + by inversion Heq.
    + by destruct (Hne s tr ts w data).
Qed.

Lemma payload_precedence_witness :
  payloadOf (Sample.args (Some (Sample.eventType true))) !! "bookingId"
    = Some (JSNumber 7) ∧
  payloadOf (Sample.args (Some (Sample.eventType true))) !! "length"
    = Some (JSNumber 45) ∧
  payloadOf (Sample.args (Some (Sample.eventType true))) !! "title"
    = Some (JSString "30min").
Proof.
  pose proof (proj1 (payload_precedence
                       (Sample.env (Fulfilled [Sample.subA])) [0%nat]
                       (Sample.args (Some (Sample.eventType true))))) as Hk.
  rewrite !Hk. repeat split; reflexivity.
Defined.




(** C5. Without an event type the six keys are still in the payload:
    [requiresConfirmation] holds [null], the other five hold
    [undefined]. *)
Theorem missing_event_type_keys_stay_present args :
  b_eventType (booking args) = None →
  payloadOf args !! "eventTitle" = Some JSUndefined ∧
  payloadOf args !! "eventDescription" = Some JSUndefined ∧
  payloadOf args !! "requiresConfirmation" = Some JSNull ∧
  payloadOf args !! "price" = Some JSUndefined ∧
  payloadOf args !! "currency" = Some JSUndefined ∧
  payloadOf args !! "length" = Some JSUndefined.
Proof.
  intros Hnone.
  repeat split; (apply payloadOf_eventTypeInfo; [done|]);
    unfold eventTypeInfo; rewrite Hnone; by simplify_map_eq.
Qed.

Lemma missing_event_type_witness :
  payloadOf (Sample.args None) !! "eventTitle" = Some JSUndefined ∧
  payloadOf (Sample.args None) !! "requiresConfirmation" = Some JSNull ∧
  payloadOf (Sample.args None) !! "length" = Some JSUndefined.
Proof.
  destruct (missing_event_type_keys_stay_present (Sample.args None) eq_refl)
    as (Htitle & _ & Hrc & _ & _ & Hlen).
  split; [exact Htitle|]. split; [exact Hrc | exact Hlen].
Defined.

(** C6. One [sendPayload] call per resolved subscriber and no more (no
    retry, whether deliveries fail or not), and at most one outcome per
    delivery: the deliveries that finish are pairwise distinct, and they are
    the resolved ones the schedule settles, so every one of them when the
    schedule settles them all. *)
Theorem one_attempt_one_outcome_no_retry env sched args subs :
  getWebhooks env (webhookOptions (booking args)) = Fulfilled subs →
  attempts (notify env sched args).1 = subs ∧
  NoDup (settledDeliveries (notify env sched args).1) ∧
  (∀ i, i ∈ settledDeliveries (notify env sched args).1 ↔
        (i < length subs)%nat ∧ i ∈ sched) ∧
  (covers sched (length subs) →
   settledDeliveries (notify env sched args).1 ≡ₚ seq 0 (length subs)).
Proof.
  intros Hsubs. split; [by apply notify_attempts|].
  rewrite (notify_settledDeliveries _ _ _ subs) by done.
  split; [apply settleOrder_NoDup|].
  split; [intros i; apply settleOrder_replicate|].
  intros Hcov. apply NoDup_Permutation.
  - apply settleOrder_NoDup.
  - apply NoDup_seq.
  - intros i. rewrite settleOrder_replicate, elem_of_seq. split.
    + intros [? _]. lia.
    + intros [_ Hi]. split; [lia|]. apply Hcov. lia.
Qed.

Lemma no_retry_witness :
  attempts (notify (Sample.env (Fulfilled [Sample.subA; Sample.subB]))
              [1; 0; 1; 0]%nat (Sample.args None)).1 = [Sample.subA; Sample.subB] ∧
  NoDup (settledDeliveries
           (notify (Sample.env (Fulfilled [Sample.subA; Sample.subB]))
              [1; 0; 1; 0]%nat (Sample.args None)).1).
Proof.
  destruct (one_attempt_one_outcome_no_retry
              (Sample.env (Fulfilled [Sample.subA; Sample.subB])) [1; 0; 1; 0]%nat
              (Sample.args None) [Sample.subA; Sample.subB] eq_refl)
    as (Hatt & Hnd & _).
  split; [exact Hatt | exact Hnd].
Defined.

(** C7. With [subs] resolved, the webhook section returns exactly when the
    schedule lets every delivery settle, and is still waiting otherwise.
    When it has returned, every resolved subscriber was attempted and every
    delivery has finished, a rejected one with its line logged. The call
    around it returns at the same moment. *)
Theorem returns_only_after_all_deliveries_settled env sched args subs :
  getWebhooks env (webhookOptions (booking args)) = Fulfilled subs →
  ((notify env sched args).2 = Returned tt ↔ covers sched (length subs)) ∧
  ((notify env sched args).2 = Returned tt ∨
   (notify env sched args).2 = Suspended) ∧
  ((notify env sched args).2 = Returned tt →
   attempts (notify env sched args).1 = subs ∧
   ∀ i sub, subs !! i = Some sub →
     i ∈ settledDeliveries (notify env sched args).1 ∧
     EvSettled i (deliveryOutcome env args i sub) ∈ (notify env sched args).1 ∧
     ∀ e, deliveryOutcome env args i sub = Rejected e →
          EvConsoleError (deliveryErrorLog sub e) ∈ (notify env sched args).1) ∧
  (emailsSent env args →
   (handleBookingRequested env sched args).2 = (notify env sched args).2).
Proof.
  intros Hsubs. split; [|split; [|split]].
  - rewrite (notify_completion _ _ _ subs) by done.
    apply completionAfter_returned.
  - rewrite (notify_completion _ _ _ subs) by done.
    apply completionAfter_cases.
  - rewrite (notify_completion _ _ _ subs) at 1 by done.
    intros Hret%completionAfter_returned.
    split; [by apply notify_attempts|].
    intros i sub Hsub.
    assert (i ∈ sched) as Hin by (apply Hret; by eapply lookup_lt_Some).
    split; [|by apply (notify_outcome_logged _ _ _ subs)].
    rewrite (notify_settledDeliveries _ _ _ subs) by done.
    apply settleOrder_replicate. split; [by eapply lookup_lt_Some|done].
  - intros Hmail. by rewrite run_after_emails.
Qed.

Lemma returns_after_all_witness :
  (notify (Sample.env (Fulfilled [Sample.subA; Sample.subB]))
     [1; 0]%nat (Sample.args None)).2 = Returned tt ∧
  attempts (notify (Sample.env (Fulfilled [Sample.subA; Sample.subB]))
              [1; 0]%nat (Sample.args None)).1 = [Sample.subA; Sample.subB] ∧
  0%nat ∈ settledDeliveries
            (notify (Sample.env (Fulfilled [Sample.subA; Sample.subB]))
               [1; 0]%nat (Sample.args None)).1.
Proof.
  destruct (returns_only_after_all_deliveries_settled
              (Sample.env (Fulfilled [Sample.subA; Sample.subB])) [1; 0]%nat
              (Sample.args None) [Sample.subA; Sample.subB] eq_refl)
    as (Hiff & _ & Hall & _).
  split; [exact (proj2 Hiff covers_sample)|].
  split; [exact (proj1 (Hall (proj2 Hiff covers_sample)))|].
  exact (proj1 (proj2 (Hall (proj2 Hiff covers_sample)) 0%nat Sample.subA eq_refl)).
Defined.

(** C8. The webhook section run twice in a row with the same arguments and
    the same resolved subscribers attempts every delivery twice: the
    attempts of the pair are those of one run, twice over, for each
    subscriber twice as many. *)
Theorem notify_twice_delivers_twice env1 sched1 env2 sched2 args subs :
  getWebhooks env1 (webhookOptions (booking args)) = Fulfilled subs →
  getWebhooks env2 (webhookOptions (booking args)) = Fulfilled subs →
  covers sched1 (length subs) →
  attempts (notifyTwice env1 sched1 env2 sched2 args).1 = subs ++ subs ∧
  attempts (notify env1 sched1 args).1 = subs ∧
  ∀ w, count_occ Webhook_eq_dec
         (attempts (notifyTwice env1 sched1 env2 sched2 args).1) w =
       (2 * count_occ Webhook_eq_dec (attempts (notify env1 sched1 args).1) w)%nat.
Proof.
  intros Hs1 Hs2 Hcov.
  rewrite notifyTwice_returned.
  2:{ rewrite (notify_completion _ _ _ subs) by done.
      by apply completionAfter_returned. }
  simpl. rewrite attempts_app.
  rewrite (notify_attempts env1 _ _ subs), (notify_attempts env2 _ _ subs) by done.
  split; [done|]. split; [done|].
  intros w. rewrite count_occ_app. lia.
Qed.

Lemma notify_twice_witness :
  attempts (notifyTwice (Sample.env (Fulfilled [Sample.subA; Sample.subB])) [1; 0]%nat
              (Sample.env (Fulfilled [Sample.subA; Sample.subB])) [0; 1]%nat
              (Sample.args None)).1
    = [Sample.subA; Sample.subB; Sample.subA; Sample.subB] ∧
  attempts (notify (Sample.env (Fulfilled [Sample.subA; Sample.subB]))
              [1; 0]%nat (Sample.args None)).1 = [Sample.subA; Sample.subB].
Proof.
  destruct (notify_twice_delivers_twice
              (Sample.env (Fulfilled [Sample.subA; Sample.subB])) [1; 0]%nat
              (Sample.env (Fulfilled [Sample.subA; Sample.subB])) [0; 1]%nat
              (Sample.args None) [Sample.subA; Sample.subB]
              eq_refl eq_refl covers_sample)
    as (Htwice & Honce & _).
  split; [exact Htwice | exact Honce].
Defined.

(** C9. An event type with [requiresConfirmation = false] puts [null] in
    the payload's [requiresConfirmation], the very value a booking without
    event type gives. *)
Theorem no_confirmation_looks_like_no_event_type args et :
  b_eventType (booking args) = Some et →
  et_requiresConfirmation et = false →
  payloadOf args !! "requiresConfirmation" = Some JSNull ∧
  ∀ args', b_eventType (booking args') = None →
           payloadOf args' !! "requiresConfirmation" =
           payloadOf args !! "requiresConfirmation".
Proof.
  intros Het Hrc.
  assert (∀ a, js_or (optChain (b_eventType (booking a))
                        (fun et => JSBool (et_requiresConfirmation et))) JSNull = JSNull →
               payloadOf a !! "requiresConfirmation" = Some JSNull) as Hnull.
  { intros a Ha. apply payloadOf_eventTypeInfo; [done|].
    by rewrite eventTypeInfo_requiresConfirmation, Ha. }
  assert (payloadOf args !! "requiresConfirmation" = Some JSNull) as Hargs.
  { apply Hnull. rewrite Het. simpl. by rewrite Hrc. }
  split; [done|]. intros args' Hnone. rewrite Hargs. apply Hnull.
  by rewrite Hnone.
Qed.

Lemma no_confirmation_witness :
  payloadOf (Sample.args (Some (Sample.eventType false))) !! "requiresConfirmation"
    = Some JSNull ∧
  payloadOf (Sample.args None) !! "requiresConfirmation"
    = payloadOf (Sample.args (Some (Sample.eventType false))) !! "requiresConfirmation".
Proof.
  destruct (no_confirmation_looks_like_no_event_type
              (Sample.args (Some (Sample.eventType false)))
              (Sample.eventType false) eq_refl eq_refl) as (Hnull & Hsame).
  split; [exact Hnull | exact (Hsame (Sample.args None) eq_refl)].
Defined.

(** C10. The mails come first and outside the [try]: when the organizer
    mail rejects with [e], or it goes out and the attendee mail rejects with
    [e], the call rejects with [e], the resolver is never asked, no delivery
    is attempted and nothing is logged. A run that reaches the resolver or a
    delivery has sent both mails before. *)
Theorem emails_precede_and_escape env sched args :
  (∀ e,
     sendOrganizerRequestEmail env (spread ∅ (calendarEventObject (evt args)))
       = Rejected e ∨
     (sendOrganizerRequestEmail env (spread ∅ (calendarEventObject (evt args)))
        = Fulfilled tt ∧
      sendAttendeeRequestEmail env (spread ∅ (calendarEventObject (evt args)))
        (firstAttendee (evt args)) = Rejected e) →
     (handleBookingRequested env sched args).2 = Threw e ∧
     attempts (handleBookingRequested env sched args).1 = [] ∧
     resolutions (handleBookingRequested env sched args).1 = [] ∧
     consoleErrors (handleBookingRequested env sched args).1 = []) ∧
  (resolutions (handleBookingRequested env sched args).1 ≠ [] ∨
   attempts (handleBookingRequested env sched args).1 ≠ [] →
   emailsSent env args ∧
   ∃ rest, (handleBookingRequested env sched args).1 =
           emailEvents args ++
           EvGetWebhooks (webhookOptions (booking args)) :: rest).
Proof.
  split.
  - intros e [Ho|[Ho Ha]].
    + by rewrite (run_organizer_rejected _ _ _ e).
    + by rewrite (run_attendee_rejected _ _ _ e).
  - destruct (sendOrganizerRequestEmail env
                (spread ∅ (calendarEventObject (evt args)))) as [[]|e] eqn:Ho.
    2:{ rewrite (run_organizer_rejected _ _ _ e) by done. simpl. by intros [?|?]. }
    destruct (sendAttendeeRequestEmail env
                (spread ∅ (calendarEventObject (evt args)))
                (firstAttendee (evt args))) as [[]|e] eqn:Ha.
    2:{ rewrite (run_attendee_rejected _ _ _ e) by done. simpl. by intros [?|?]. }
    intros _. assert (emailsSent env args) as Hmail by done.
    split; [done|].
    destruct (getWebhooks env (webhookOptions (booking args))) as [subs|e] eqn:Hs.
    + rewrite (run_resolved _ _ _ subs) by done. simpl. eauto.
    + rewrite (run_resolver_rejected _ _ _ e) by done. simpl. eauto.
Qed.

Lemma emails_precede_witness :
  (handleBookingRequested Sample.envMailDown [0; 1]%nat (Sample.args None)).2
    = Threw Sample.smtpError ∧
  attempts (handleBookingRequested Sample.envMailDown [0; 1]%nat (Sample.args None)).1
    = [].
Proof.
  destruct (proj1 (emails_precede_and_escape Sample.envMailDown [0; 1]%nat
                     (Sample.args None)) Sample.smtpError (or_introl eq_refl))
    as (Hthrew & Hnone & _).
  split; [exact Hthrew | exact Hnone].
Defined.

(** * Further properties of the code *)

(** ** More about traces *)

Lemma omap_imap_None {A B C} (g : B → option C) (f : nat → A → B) (l : list A) :
  (∀ i x, g (f i x) = None) → omap g (imap f l) = [].
Proof.
  revert f. induction l as [|x l IH]; intros f Hg; [done|].
  cbn. rewrite Hg. apply IH. intros i y. apply Hg.
Qed.

Lemma omap_settleTrace {C} (g : Event → option C) env args subs order :
  omap g (settleTrace env args subs order) =
  flat_map (fun i => omap g (from_option (settleEvents env args i) [] (subs !! i)))
           order.
Proof.
  unfold settleTrace. induction order as [|i order IH]; [done|].
  simpl. by rewrite omap_app, IH.
Qed.

Lemma omap_settleTrace_None {C} (g : Event → option C) env args subs order :
  (∀ i o, g (EvSettled i o) = None) → (∀ a, g (EvConsoleError a) = None) →
  omap g (settleTrace env args subs order) = [].
Proof.
  intros Hs Hc. rewrite omap_settleTrace.
  induction order as [|i order IH]; [done|]. simpl. rewrite IH, app_nil_r.
  destruct (subs !! i) as [sub|]; [|done]. unfold settleEvents. cbn.
  rewrite Hs. destruct (deliveryOutcome env args i sub); [done|].
  cbn. by rewrite Hc.
Qed.

Lemma consoleErrors_settleTrace env args subs order :
  consoleErrors (settleTrace env args subs order) =
  omap (failureLog env args subs) order.
Proof.
  unfold consoleErrors. rewrite omap_settleTrace.
  induction order as [|i order IH]; [done|]. simpl. rewrite IH.
  unfold failureLog. destruct (subs !! i) as [sub|]; [|done].
  unfold settleEvents. cbn. by destruct (deliveryOutcome env args i sub).
Qed.

Lemma notify_consoleErrors env sched args subs :
  getWebhooks env (webhookOptions (booking args)) = Fulfilled subs →
  consoleErrors (notify env sched args).1 =
  omap (failureLog env args subs) (settledDeliveries (notify env sched args).1).
Proof.
  intros Hsubs. rewrite (notify_settledDeliveries _ _ _ subs) by done.
  rewrite (notify_resolved _ _ _ subs) by done. simpl.
  unfold consoleErrors at 1. rewrite omap_app.
  rewrite (omap_imap_None _ (sendEvent env args)) by done.
  apply consoleErrors_settleTrace.
Qed.

Lemma settleOrder_done (settled : list bool) (sched : list nat) :
  forallb id settled = true → settleOrder settled sched = [].
Proof. intros H. destruct sched; simpl; by rewrite H. Qed.

Lemma notify_no_subscribers env sched args :
  getWebhooks env (webhookOptions (booking args)) = Fulfilled [] →
  notify env sched args =
    ([EvGetWebhooks (webhookOptions (booking args))], Returned tt).
Proof.
  intros Hsubs. rewrite (notify_resolved _ _ _ []) by done. simpl.
  rewrite settleOrder_done by done.
  by rewrite (proj2 (completionAfter_returned 0 sched)) by (intros i Hi; lia).
Qed.

(** X1. When the resolver answers with no subscriber, the webhook section
    returns at once under every schedule: the resolver call is its only
    effect, nothing is sent and nothing is logged. *)
Theorem no_subscribers_returns_at_once env sched args :
  getWebhooks env (webhookOptions (booking args)) = Fulfilled [] →
  notify env sched args =
    ([EvGetWebhooks (webhookOptions (booking args))], Returned tt) ∧
  (emailsSent env args →
   handleBookingRequested env sched args =
     (emailEvents args ++ [EvGetWebhooks (webhookOptions (booking args))],
      Returned tt)).
Proof.
  intros Hsubs. split; [by apply notify_no_subscribers|].
  intros Hmail. rewrite run_after_emails by done.
  by rewrite notify_no_subscribers.
Qed.

Lemma no_subscribers_witness :
  notify (Sample.env (Fulfilled [])) [] (Sample.args None) =
    ([EvGetWebhooks (webhookOptions (booking (Sample.args None)))], Returned tt).
Proof.
  exact (proj1 (no_subscribers_returns_at_once (Sample.env (Fulfilled [])) []
                  (Sample.args None) eq_refl)).
Defined.

(** X2. Once both mails are out the resolver is asked exactly once per
    call, whatever it answers, and never more than once in any run; it is
    asked for [BOOKING_REQUESTED], with an [undefined] team when the booking
    has no event type. *)
Theorem resolver_is_asked_once env sched args :
  (emailsSent env args →
   resolutions (handleBookingRequested env sched args).1
     = [webhookOptions (booking args)]) ∧
  (length (resolutions (handleBookingRequested env sched args).1) ≤ 1)%nat ∧
  o_triggerEvent (webhookOptions (booking args)) = BOOKING_REQUESTED ∧
  (b_eventType (booking args) = None →
   o_teamId (webhookOptions (booking args)) = JSUndefined).
Proof.
  assert (emailsSent env args →
          resolutions (handleBookingRequested env sched args).1
            = [webhookOptions (booking args)]) as Hone.
  { intros Hmail.
    destruct (getWebhooks env (webhookOptions (booking args))) as [subs|e] eqn:Hs.
    - rewrite (run_resolved _ _ _ subs) by done. simpl.
      unfold resolutions. rewrite omap_app.
      rewrite (omap_imap_None _ (sendEvent env args)) by done.
      by rewrite omap_settleTrace_None.
    - by rewrite (run_resolver_rejected _ _ _ e). }
  split; [done|]. split; [|split; [done|]].
  - destruct (sendOrganizerRequestEmail env
                (spread ∅ (calendarEventObject (evt args)))) as [[]|e] eqn:Ho.
    2:{ rewrite (run_organizer_rejected _ _ _ e) by done. simpl. lia. }
    destruct (sendAttendeeRequestEmail env
                (spread ∅ (calendarEventObject (evt args)))
                (firstAttendee (evt args))) as [[]|e] eqn:Ha.
    2:{ rewrite (run_attendee_rejected _ _ _ e) by done. simpl. lia. }
    rewrite Hone by done. simpl. lia.
  - intros Hnone. unfold webhookOptions. simpl. by rewrite Hnone.
Qed.

Lemma resolver_is_asked_once_witness :
  resolutions (handleBookingRequested
                 (Sample.env (Fulfilled [Sample.subA; Sample.subB]))
                 [1; 0]%nat (Sample.args None)).1
    = [webhookOptions (booking (Sample.args None))] ∧
  o_teamId (webhookOptions (booking (Sample.args None))) = JSUndefined.
Proof.
  destruct (resolver_is_asked_once
              (Sample.env (Fulfilled [Sample.subA; Sample.subB]))
              [1; 0]%nat (Sample.args None)) as (Hone & _ & _ & Hteam).
  split; [exact (Hone (conj eq_refl eq_refl)) | exact (Hteam eq_refl)].
Defined.

(** X3. Every [sendPayload] call of a run is made, in the resolver's
    order, before any delivery failure is logged: the trace of the webhook
    section is the resolver call, then the [sendPayload] calls, then a rest
    that holds every logged line and no [sendPayload] call. *)
Theorem every_request_leaves_before_any_failure_is_logged env sched args subs :
  getWebhooks env (webhookOptions (booking args)) = Fulfilled subs →
  ∃ rest,
    (notify env sched args).1 =
      EvGetWebhooks (webhookOptions (booking args)) ::
      imap (sendEvent env args) subs ++ rest ∧
    attempts rest = [] ∧
    consoleErrors rest = consoleErrors (notify env sched args).1.
Proof.
  intros Hsubs. eexists. rewrite (notify_resolved _ _ _ subs) by done. simpl.
  split; [done|]. split; [apply attempts_settleTrace|].
  unfold consoleErrors at 2. rewrite omap_app.
  by rewrite (omap_imap_None _ (sendEvent env args)).
Qed.

Lemma every_request_leaves_witness :
  ∃ rest,
    (notify (Sample.env (Fulfilled [Sample.subA; Sample.subB])) [1; 0]%nat
       (Sample.args None)).1 =
      EvGetWebhooks (webhookOptions (booking (Sample.args None))) ::
      imap (sendEvent (Sample.env (Fulfilled [Sample.subA; Sample.subB]))
              (Sample.args None)) [Sample.subA; Sample.subB] ++ rest ∧
    attempts rest = [] ∧
    consoleErrors rest =
      [deliveryErrorLog Sample.subA Sample.networkError].
Proof.
  destruct (every_request_leaves_before_any_failure_is_logged
              (Sample.env (Fulfilled [Sample.subA; Sample.subB])) [1; 0]%nat
              (Sample.args None) [Sample.subA; Sample.subB] eq_refl)
    as (rest & Htrace & Hnone & Hlog).
  exists rest. split; [exact Htrace|]. split; [exact Hnone|].
  rewrite Hlog. reflexivity.
Defined.

(** X4. Every [sendPayload] call of any run is made with the secret of
    the subscriber it goes to, the trigger [BOOKING_REQUESTED], the payload
    of the call and a timestamp read in a callback of the map. *)
Theorem every_delivery_is_signed_for_its_subscriber env sched args
    s tr ts w data :
  EvSendPayload s tr ts w data ∈ (handleBookingRequested env sched args).1 →
  s = secret w ∧ tr = BOOKING_REQUESTED ∧ data = payloadOf args ∧
  ∃ i, ts = now env i.
Proof.
  intros Hin. apply run_sends in Hin as [(i & sub & Heq)|Hne].
  - inversion Heq; subst. eauto.
  - by destruct (Hne s tr ts w data).
Qed.

Lemma every_delivery_is_signed_witness :
  EvSendPayload None BOOKING_REQUESTED "2023-09-01T10:00:00.000Z" Sample.subA
                (payloadOf (Sample.args None))
    ∈ (handleBookingRequested (Sample.env (Fulfilled [Sample.subA])) [0%nat]
         (Sample.args None)).1 ∧
  (None : option string) = secret Sample.subA.
Proof.
  assert (EvSendPayload None BOOKING_REQUESTED "2023-09-01T10:00:00.000Z"
            Sample.subA (payloadOf (Sample.args None))
            ∈ (handleBookingRequested (Sample.env (Fulfilled [Sample.subA]))
                 [0%nat] (Sample.args None)).1) as Hin.
  { do 3 apply list_elem_of_further. apply list_elem_of_here. }
  split; [exact Hin|].
  exact (proj1 (every_delivery_is_signed_for_its_subscriber _ _ _ _ _ _ _ _ Hin)).
Defined.

(** X5. The lines logged by the webhook section are those of the rejected
    deliveries, one each, in the order the deliveries settle: no line when
    every delivery succeeds; when every delivery fails and all have settled,
    as many lines as subscribers, and the section still returns. *)
Theorem failures_are_logged_once_in_settling_order env sched args subs :
  getWebhooks env (webhookOptions (booking args)) = Fulfilled subs →
  consoleErrors (notify env sched args).1 =
    omap (failureLog env args subs) (settledDeliveries (notify env sched args).1) ∧
  ((∀ i sub, subs !! i = Some sub →
             ∃ r, deliveryOutcome env args i sub = Fulfilled r) →
   consoleErrors (notify env sched args).1 = []) ∧
  ((∀ i sub, subs !! i = Some sub →
             ∃ e, deliveryOutcome env args i sub = Rejected e) →
   covers sched (length subs) →
   length (consoleErrors (notify env sched args).1) = length subs ∧
   (notify env sched args).2 = Returned tt).
Proof.
  intros Hsubs. rewrite (notify_consoleErrors _ _ _ subs) by done.
  rewrite (notify_settledDeliveries _ _ _ subs) by done.
  split; [done|]. split.
  - intros Hok.
    induction (settleOrder (replicate (length subs) false) sched) as [|i order IH];
      [done|].
    cbn. rewrite IH. unfold failureLog.
    destruct (subs !! i) as [sub|] eqn:Hi; [|done].
    by destruct (Hok i sub Hi) as [r ->].
  - intros Hbad Hcov. split.
    + assert (settleOrder (replicate (length subs) false) sched
                ≡ₚ seq 0 (length subs)) as Hperm.
      { apply NoDup_Permutation; [apply settleOrder_NoDup|apply NoDup_seq|].
        intros i. rewrite settleOrder_replicate, elem_of_seq. split.
        - intros [? _]. lia.
        - intros [_ Hi]. split; [lia|]. apply Hcov. lia. }
      assert (∀ order, (∀ i, i ∈ order → (i < length subs)%nat) →
                length (omap (failureLog env args subs) order) = length order)
        as Hlen.
      { induction order as [|i order IH]; intros Hlt; [done|].
        cbn. unfold failureLog at 1.
        destruct (lookup_lt_is_Some_2 subs i) as [sub Hi].
        { apply Hlt. by left. }
        rewrite Hi. destruct (Hbad i sub Hi) as [e ->]. cbn.
        f_equal. apply IH. intros j Hj. apply Hlt. by right. }
      rewrite Hlen.
      * by rewrite (Permutation_length Hperm), length_seq.
      * intros i Hi. by apply settleOrder_replicate in Hi as [? _].
    + rewrite (notify_completion _ _ _ subs) by done.
      by apply completionAfter_returned.
Qed.

Lemma failures_are_logged_witness :
  consoleErrors (notify (Sample.env (Fulfilled [Sample.subA; Sample.subB]))
                   [1; 0]%nat (Sample.args None)).1 =
  omap (failureLog (Sample.env (Fulfilled [Sample.subA; Sample.subB]))
          (Sample.args None) [Sample.subA; Sample.subB])
       (settledDeliveries
          (notify (Sample.env (Fulfilled [Sample.subA; Sample.subB]))
             [1; 0]%nat (Sample.args None)).1).
Proof.
  exact (proj1 (failures_are_logged_once_in_settling_order
                  (Sample.env (Fulfilled [Sample.subA; Sample.subB])) [1; 0]%nat
                  (Sample.args None) [Sample.subA; Sample.subB] eq_refl)).
Defined.

Lemma settleOrder_covers (n : nat) (sched : list nat) :
  covers sched n → settleOrder (replicate n false) sched ≡ₚ seq 0 n.
Proof.
  intros Hcov.
  apply NoDup_Permutation; [apply settleOrder_NoDup|apply NoDup_seq|].
  intros i. rewrite settleOrder_replicate, elem_of_seq. split.
  - intros [? _]. lia.
  - intros [_ Hi]. split; [lia|]. apply Hcov. lia.
Qed.

(** X6. The order in which the deliveries settle only permutes the
    effects: under two schedules that settle every delivery the traces are
    permutations of each other, the calls end alike and attempt the same
    deliveries. *)
Theorem settling_order_only_permutes_the_trace env sched1 sched2 args subs :
  getWebhooks env (webhookOptions (booking args)) = Fulfilled subs →
  covers sched1 (length subs) → covers sched2 (length subs) →
  (notify env sched1 args).1 ≡ₚ (notify env sched2 args).1 ∧
  (notify env sched1 args).2 = (notify env sched2 args).2 ∧
  attempts (notify env sched1 args).1 = attempts (notify env sched2 args).1.
Proof.
  intros Hsubs Hc1 Hc2.
  rewrite !(notify_attempts _ _ _ subs) by done.
  rewrite !(notify_resolved _ _ _ subs) by done. simpl.
  split; [|split; [|done]].
  - apply Permutation_skip, Permutation_app_head.
    unfold settleTrace. apply Permutation_flat_map.
    by rewrite !settleOrder_covers.
  - by rewrite !(proj2 (completionAfter_returned _ _)).
Qed.

Lemma settling_order_witness :
  (notify (Sample.env (Fulfilled [Sample.subA; Sample.subB])) [1; 0]%nat
     (Sample.args None)).1 ≡ₚ
  (notify (Sample.env (Fulfilled [Sample.subA; Sample.subB])) [0; 1; 0]%nat
     (Sample.args None)).1.
Proof.
  refine (proj1 (settling_order_only_permutes_the_trace
                   (Sample.env (Fulfilled [Sample.subA; Sample.subB]))
                   [1; 0]%nat [0; 1; 0]%nat (Sample.args None)
                   [Sample.subA; Sample.subB] eq_refl covers_sample _)).
  intros i Hi. simpl in Hi. destruct i as [|[|i]]; [| |lia].
  - apply list_elem_of_here.
  - apply list_elem_of_further, list_elem_of_here.
Defined.

Lemma mails_notify env sched args : mails (notify env sched args).1 = [].
Proof.
  destruct (getWebhooks env (webhookOptions (booking args))) as [subs|e] eqn:Hs.
  - rewrite (notify_resolved _ _ _ subs) by done. simpl.
    unfold mails. rewrite omap_app.
    rewrite (omap_imap_None _ (sendEvent env args)) by done.
    by rewrite omap_settleTrace_None.
  - by rewrite (notify_rejected _ _ _ e).
Qed.

(** X7. The organizer is mailed first: when that mail rejects it is the
    only effect of the call and the attendee is not mailed. When it goes out,
    the mails of the run are the organizer's and then the attendee's, once
    each. With an empty attendee list the attendee mail is addressed to
    [undefined]. *)
Theorem organizer_is_mailed_first_attendee_only_after env sched args :
  (∀ e, sendOrganizerRequestEmail env (spread ∅ (calendarEventObject (evt args)))
          = Rejected e →
        handleBookingRequested env sched args =
          ([EvOrganizerRequestEmail (spread ∅ (calendarEventObject (evt args)))],
           Threw e)) ∧
  (sendOrganizerRequestEmail env (spread ∅ (calendarEventObject (evt args)))
     = Fulfilled tt →
   mails (handleBookingRequested env sched args).1 = emailEvents args) ∧
  (attendees (evt args) = [] →
   emailEvents args =
     [EvOrganizerRequestEmail (spread ∅ (calendarEventObject (evt args)));
      EvAttendeeRequestEmail (spread ∅ (calendarEventObject (evt args)))
        JSUndefined]).
Proof.
  split; [|split].
  - intros e Ho. by apply run_organizer_rejected.
  - intros Ho.
    destruct (sendAttendeeRequestEmail env
                (spread ∅ (calendarEventObject (evt args)))
                (firstAttendee (evt args))) as [[]|e] eqn:Ha.
    + rewrite run_after_emails by done. cbn [fst].
      unfold mails. rewrite omap_app. fold (mails (notify env sched args).1).
      by rewrite mails_notify, app_nil_r.
    + by rewrite (run_attendee_rejected _ _ _ e).
  - intros Hnone. unfold emailEvents, firstAttendee. by rewrite Hnone.
Qed.

Lemma organizer_is_mailed_first_witness :
  handleBookingRequested Sample.envMailDown [0; 1]%nat (Sample.args None) =
    ([EvOrganizerRequestEmail
        (spread ∅ (calendarEventObject (evt (Sample.args None))))],
     Threw Sample.smtpError) ∧
  mails (handleBookingRequested (Sample.env (Fulfilled [Sample.subA])) [0%nat]
           (Sample.args None)).1 = emailEvents (Sample.args None).
Proof.
  split.
  - exact (proj1 (organizer_is_mailed_first_attendee_only_after
                    Sample.envMailDown [0; 1]%nat (Sample.args None))
                 Sample.smtpError eq_refl).
  - exact (proj1 (proj2 (organizer_is_mailed_first_attendee_only_after
                           (Sample.env (Fulfilled [Sample.subA])) [0%nat]
                           (Sample.args None))) eq_refl).
Defined.

(** X8. The call rejects with [e] exactly when the organizer mail rejects
    with [e], or it goes out and the attendee mail rejects with [e]. *)
Theorem only_mail_errors_escape env sched args e :
  (handleBookingRequested env sched args).2 = Threw e ↔
  sendOrganizerRequestEmail env (spread ∅ (calendarEventObject (evt args)))
    = Rejected e ∨
  (sendOrganizerRequestEmail env (spread ∅ (calendarEventObject (evt args)))
     = Fulfilled tt ∧
   sendAttendeeRequestEmail env (spread ∅ (calendarEventObject (evt args)))
     (firstAttendee (evt args)) = Rejected e).
Proof.
  destruct (sendOrganizerRequestEmail env
              (spread ∅ (calendarEventObject (evt args)))) as [[]|e1] eqn:Ho.
  2:{ rewrite (run_organizer_rejected _ _ _ e1) by done. simpl.
      split; [intros [= ->]; by left|]. by intros [[= ->]|[? _]]. }
  destruct (sendAttendeeRequestEmail env
              (spread ∅ (calendarEventObject (evt args)))
              (firstAttendee (evt args))) as [[]|e2] eqn:Ha.
  2:{ rewrite (run_attendee_rejected _ _ _ e2) by done. simpl.
      split; [intros [= ->]; by right|]. by intros [?|[_ [= ->]]]. }
  split.
  - intros Hthrew. by apply run_never_throws_after_emails in Hthrew.
  - by intros [?|[_ ?]].
Qed.

(** X9. The call returns exactly when both mails go out and either the
    resolver rejects or every delivery to the resolved subscribers
    settles. *)
Theorem returns_exactly_when env sched args :
  (handleBookingRequested env sched args).2 = Returned tt ↔
  emailsSent env args ∧
  ((∃ e, getWebhooks env (webhookOptions (booking args)) = Rejected e) ∨
   (∃ subs, getWebhooks env (webhookOptions (booking args)) = Fulfilled subs ∧
            covers sched (length subs))).
Proof.
  destruct (sendOrganizerRequestEmail env
              (spread ∅ (calendarEventObject (evt args)))) as [[]|e1] eqn:Ho.
  2:{ rewrite (run_organizer_rejected _ _ _ e1) by done. simpl.
      split; [done|]. intros [[Hm _] _]. congruence. }
  destruct (sendAttendeeRequestEmail env
              (spread ∅ (calendarEventObject (evt args)))
              (firstAttendee (evt args))) as [[]|e2] eqn:Ha.
  2:{ rewrite (run_attendee_rejected _ _ _ e2) by done. simpl.
      split; [done|]. intros [[_ Hm] _]. congruence. }
  assert (emailsSent env args) as Hmail by done.
  destruct (getWebhooks env (webhookOptions (booking args))) as [subs|e] eqn:Hs.
  - rewrite (run_resolved _ _ _ subs) by done. simpl.
    rewrite completionAfter_returned. split.
    + intros Hcov. split; [done|]. right. eauto.
    + intros [_ [[e ?]|(subs' & [= <-] & Hcov)]]; done.
  - rewrite (run_resolver_rejected _ _ _ e) by done. simpl.
    split; [|done]. intros _. split; [done|]. left. eauto.
Qed.

(** ** More about the payload *)

(** X10. The payload's [requiresConfirmation] is [true] or [null], never
    [false]: [true] exactly when the booking has an event type that requires
    confirmation. *)
Theorem requiresConfirmation_is_true_or_null args :
  (payloadOf args !! "requiresConfirmation" = Some (JSBool true) ∨
   payloadOf args !! "requiresConfirmation" = Some JSNull) ∧
  (payloadOf args !! "requiresConfirmation" = Some (JSBool true) ↔
   ∃ et, b_eventType (booking args) = Some et ∧
         et_requiresConfirmation et = true).
Proof.
  assert (payloadOf args !! "requiresConfirmation" =
          Some (js_or (optChain (b_eventType (booking args))
                         (fun et => JSBool (et_requiresConfirmation et))) JSNull))
    as ->.
  { apply payloadOf_eventTypeInfo; [done|].
    apply eventTypeInfo_requiresConfirmation. }
  destruct (b_eventType (booking args)) as [et|]; simpl.
  - unfold js_or. simpl. destruct (et_requiresConfirmation et) eqn:Hrc.
    + split; [by left|]. split; [eauto|done].
    + split; [by right|]. split; [done|]. intros (et' & [= <-] & ?). congruence.
  - split; [by right|]. split; [done|]. by intros (et' & ? & _).
Qed.

(** X11. With an event type, the payload carries its title, description
    ([null] when it has none), price, currency and length under
    [eventTitle], [eventDescription], [price], [currency] and [length],
    whatever the calendar event holds under these keys. *)
Theorem event_type_values_reach_the_payload args et :
  b_eventType (booking args) = Some et →
  payloadOf args !! "eventTitle" = Some (JSString (et_title et)) ∧
  payloadOf args !! "eventDescription"
    = Some (ofNullableString (et_description et)) ∧
  payloadOf args !! "price" = Some (JSNumber (et_price et)) ∧
  payloadOf args !! "currency" = Some (JSString (et_currency et)) ∧
  payloadOf args !! "length" = Some (JSNumber (et_length et)).
Proof.
  intros Het.
  repeat split; (apply payloadOf_eventTypeInfo; [done|]);
    unfold eventTypeInfo; rewrite Het; by simplify_map_eq.
Qed.

Lemma event_type_values_witness :
  payloadOf (Sample.args (Some (Sample.eventType true))) !! "eventTitle"
    = Some (JSString "Consult") ∧
  payloadOf (Sample.args (Some (Sample.eventType true))) !! "eventDescription"
    = Some JSNull ∧
  payloadOf (Sample.args (Some (Sample.eventType true))) !! "length"
    = Some (JSNumber 45).
Proof.
  destruct (event_type_values_reach_the_payload
              (Sample.args (Some (Sample.eventType true)))
              (Sample.eventType true) eq_refl)
    as (Htitle & Hdesc & _ & _ & Hlen).
  split; [exact Htitle|]. split; [exact Hdesc | exact Hlen].
Defined.

Lemma dom_eventTypeInfo (b : Booking) : dom (eventTypeInfo b) = eventTypeInfoKeys.
Proof.
  unfold eventTypeInfo, eventTypeInfoKeys.
  rewrite !dom_insert_L, dom_empty_L. by vm_compute.
Qed.

(** X12. The keys of the payload are those of the calendar event, the six
    of [eventTypeInfo] and [bookingId]; [attendees] and [bookingId] hold the
    event's attendees and the booking id, and every other key outside
    [eventTypeInfo] holds the calendar event's value. *)
Theorem payload_keys args :
  dom (payloadOf args) =
    dom (otherProps (evt args)) ∪ {[ "attendees" ]} ∪ eventTypeInfoKeys
    ∪ {[ "bookingId" ]} ∧
  payloadOf args !! "attendees" = Some (JSArray (attendees (evt args))) ∧
  payloadOf args !! "bookingId" = Some (JSNumber (bookingId args)) ∧
  (∀ k, k ∉ eventTypeInfoKeys → k ≠ "bookingId" → k ≠ "attendees" →
        payloadOf args !! k = otherProps (evt args) !! k).
Proof.
  split; [|split; [|split]].
  - unfold payloadOf, webhookPayload, spread, calendarEventObject.
    rewrite dom_insert_L, !dom_union_L, dom_insert_L, dom_empty_L.
    rewrite dom_eventTypeInfo. apply set_eq. intros k.
    rewrite !elem_of_union, elem_of_empty. tauto.
  - unfold payloadOf. rewrite webhookPayload_lookup.
    rewrite lookup_singleton_ne by done.
    assert (eventTypeInfo (booking args) !! "attendees" = None) as ->.
    { apply not_elem_of_dom. rewrite dom_eventTypeInfo.
      apply (bool_decide_unpack _). by vm_compute. }
    unfold calendarEventObject. by rewrite lookup_insert_eq.
  - unfold payloadOf. rewrite webhookPayload_lookup.
    by rewrite lookup_singleton_eq.
  - intros k Hk Hb Ha. unfold payloadOf. rewrite webhookPayload_lookup.
    rewrite lookup_singleton_ne by done.
    assert (eventTypeInfo (booking args) !! k = None) as ->.
    { apply not_elem_of_dom. by rewrite dom_eventTypeInfo. }
    unfold calendarEventObject. by rewrite lookup_insert_ne.
Qed.

(** X13. [paid] and [booking.smsReminderNumber] are never read: two calls
    that differ only there run alike. *)
Theorem unused_inputs_do_not_matter env sched calEvent bid et etid uid
    sms sms' paid paid' :
  handleBookingRequested env sched
    (mkArgs calEvent bid (mkBooking et etid sms uid) paid) =
  handleBookingRequested env sched
    (mkArgs calEvent bid (mkBooking et etid sms' uid) paid').
Proof. reflexivity. Qed.

Lemma append_inj_r (p a b : string) : p +:+ a = p +:+ b → a = b.
Proof. induction p as [|c p IH]; simpl; [done|]. intros [= H]. by apply IH. Qed.

(** X14. The message logged for a failed delivery determines the
    subscriber's URL. *)
Theorem log_line_names_the_endpoint (s1 s2 : Webhook) :
  deliveryErrorMessage s1 = deliveryErrorMessage s2 →
  subscriberUrl s1 = subscriberUrl s2.
Proof.
  unfold deliveryErrorMessage. intros H.
  by do 3 apply append_inj_r in H.
Qed.

Lemma log_line_witness :
  w_id Sample.subA = "a" ∧ w_id Sample.subA2 = "a2" ∧
  deliveryErrorMessage Sample.subA = deliveryErrorMessage Sample.subA2 ∧
  subscriberUrl Sample.subA = subscriberUrl Sample.subA2.
Proof.
  split; [reflexivity|]. split; [reflexivity|]. split; [reflexivity|].
  exact (log_line_names_the_endpoint Sample.subA Sample.subA2 eq_refl).
Defined.

(** ** The test helpers *)

Lemma dom_basicRequest d1 d2 :
  dom (getBasicMockRequestDataForBooking d1 d2) = basicRequestKeys.
Proof.
  unfold getBasicMockRequestDataForBooking, basicRequestKeys.
  rewrite !dom_insert_L, dom_empty_L. by vm_compute.
Qed.

(** X15. In the request data of the tests a key given in [data] holds
    [data]'s value, any other key holds the default; the keys are the ten
    defaults and those of [data], and a key that is no default comes from
    [data] alone. *)
Theorem mock_request_data_overrides d1 d2 (data : JSObj) :
  (∀ k v, data !! k = Some v →
          getMockRequestDataForBooking d1 d2 data !! k = Some v) ∧
  (∀ k, data !! k = None →
        getMockRequestDataForBooking d1 d2 data !! k =
        getBasicMockRequestDataForBooking d1 d2 !! k) ∧
  dom (getMockRequestDataForBooking d1 d2 data) = basicRequestKeys ∪ dom data ∧
  (∀ k, k ∉ basicRequestKeys →
        getMockRequestDataForBooking d1 d2 data !! k = data !! k).
Proof.
  unfold getMockRequestDataForBooking, spread.
  split; [|split; [|split]].
  - intros k v Hk. by apply lookup_union_Some_l.
  - intros k Hk. rewrite lookup_union_r by done.
    by rewrite lookup_union_l by apply lookup_empty.
  - rewrite !dom_union_L, dom_empty_L, dom_basicRequest. apply set_eq. intros k.
    rewrite !elem_of_union, elem_of_empty. tauto.
  - intros k Hk. rewrite lookup_union, lookup_union, lookup_empty.
    assert (getBasicMockRequestDataForBooking d1 d2 !! k = None) as ->.
    { apply not_elem_of_dom. by rewrite dom_basicRequest. }
    by destruct (data !! k).
Qed.

(** X16. The test timeout is 5000 exactly when [CI] is set to a non-empty
    string (whatever the string says), and 20000 when it is unset or
    empty. *)
Theorem timeout_depends_on_CI_truthiness (ci : option string) :
  (timeout ci = 5000%Z ↔ ∃ s, ci = Some s ∧ s ≠ "") ∧
  (timeout ci = 20000%Z ↔ ci = None ∨ ci = Some "").
Proof.
  unfold timeout, processEnv. destruct ci as [s|]; simpl.
  - destruct s as [|c s]; simpl.
    + split; split; try done; [intros (s & [= <-] & ?); done | by right].
    + split; split; try done; [intros _; eexists; split; done | intros [?|?]; done].
  - split; split; try done; [intros (s & ? & _); done | by left].
Qed.

Lemma only_mail_errors_witness :
  (handleBookingRequested Sample.envMailDown [0; 1]%nat (Sample.args None)).2
    = Threw Sample.smtpError.
Proof.
  exact (proj2 (only_mail_errors_escape Sample.envMailDown [0; 1]%nat
                  (Sample.args None) Sample.smtpError) (or_introl eq_refl)).
Defined.

Lemma returns_exactly_when_witness :
  (handleBookingRequested (Sample.env (Fulfilled [Sample.subA; Sample.subB]))
     [1; 0]%nat (Sample.args None)).2 = Returned tt.
Proof.
  apply (proj2 (returns_exactly_when
                  (Sample.env (Fulfilled [Sample.subA; Sample.subB]))
                  [1; 0]%nat (Sample.args None))).
  split; [split; reflexivity|]. right.
  exists [Sample.subA; Sample.subB]. split; [reflexivity | exact covers_sample].
Defined.

Lemma requiresConfirmation_witness :
  payloadOf (Sample.args (Some (Sample.eventType true))) !! "requiresConfirmation"
    = Some (JSBool true).
Proof.
  apply (proj2 (proj2 (requiresConfirmation_is_true_or_null
                         (Sample.args (Some (Sample.eventType true)))))).
  exists (Sample.eventType true). split; reflexivity.
Defined.

Lemma payload_keys_witness :
  payloadOf (Sample.args None) !! "attendees" = Some (JSArray [Sample.booker]) ∧
  payloadOf (Sample.args None) !! "title" = Some (JSString "30min").
Proof.
  destruct (payload_keys (Sample.args None)) as (_ & Hatt & _ & Hother).
  split; [exact Hatt|].
  rewrite Hother; [reflexivity| |discriminate|discriminate].
  apply (bool_decide_unpack _). vm_compute. exact I.
Defined.

Lemma mock_request_data_witness :
  getMockRequestDataForBooking "2023-09-02" "2023-09-02"
      (<["eventTypeId" := JSNumber 1]> (<["user" := JSString "owner"]> ∅))
    !! "user" = Some (JSString "owner") ∧
  getMockRequestDataForBooking "2023-09-02" "2023-09-02"
      (<["eventTypeId" := JSNumber 1]> (<["user" := JSString "owner"]> ∅))
    !! "timeZone" = Some (JSString "Asia/Calcutta").
Proof.
  destruct (mock_request_data_overrides "2023-09-02" "2023-09-02"
              (<["eventTypeId" := JSNumber 1]> (<["user" := JSString "owner"]> ∅)))
    as (Hdata & Hbasic & _).
  split.
  - apply Hdata. reflexivity.
  - rewrite Hbasic; reflexivity.
Defined.

Lemma timeout_witness : timeout (Some "false") = 5000%Z ∧ timeout (Some "") = 20000%Z.
Proof.
  split.
  - apply (proj2 (proj1 (timeout_depends_on_CI_truthiness (Some "false")))).
    exists "false". split; [reflexivity | discriminate].
  - apply (proj2 (proj2 (timeout_depends_on_CI_truthiness (Some "")))).
    right. reflexivity.
Defined.
